(** * react-native-ota: the gatekeeper API and the storage gate

    A shallow embedding of the two Express servers of the repository,
    [local-system/api-server/api.js] (the [GET /check] handler) and
    [local-system/cdn-server/cdn.js] (the [secureGuard] middleware), with
    the properties the specification states about them. *)

From Stdlib Require Import Ascii ZArith Lia.
From stdpp Require Import base option list strings gmap pretty.

Set Warnings "-register-all".
Local Open Scope string_scope.
Local Open Scope list_scope.
Local Open Scope Z_scope.

(** ** JavaScript values *)

(** The values [JSON.parse] can return, plus [undefined], which only a
    property read produces.  A number is carried by its canonical decimal
    text (the result of [Number.prototype.toString], so ["Infinity"] for
    what [JSON.parse] makes of [1e400]); a string by its UTF-8 bytes, a
    lone surrogate by the three bytes the same scheme gives it; an object
    is the list of its own enumerable properties in property order, keys
    distinct. *)
Inductive value : Type :=
  | VUndefined
  | VNull
  | VBool (b : bool)
  | VNum (repr : string)
  | VStr (s : string)
  | VArr (elems : list value)
  | VObj (props : list (string * value)).

(** Exceptions of the runtime that the handlers can meet. *)
Inductive exn : Type :=
  | TypeError
  | SyntaxError
  | FsError.

Inductive result (A : Type) : Type :=
  | Ok (a : A)
  | Throw (e : exn).
Arguments Ok {A} a.
Arguments Throw {A} e.

(** ** The process a handler runs in *)

(** The utf8 text of a regular file, carried by what [JSON.parse] makes of
    it, the only use the code has for it: [Throw SyntaxError] for text that
    is not JSON. *)
Record text : Type := Utf8 { JSON_parse : result value }.

Inductive fsnode : Type :=
  | Dir
  | File (content : text).

(** [dirname] is the module's [__dirname], [fs] the file system by
    normalised absolute path, [clock] the value of [Date.now()]. *)
Record process : Type := Process {
  dirname : string;
  fs : gmap string fsnode;
  clock : Z
}.

(** What a handler does besides answering, in program order. *)
Inductive event : Type :=
  | ConsoleLog (line : string)
  | ConsoleError (line : string) (err : exn)
  | ExistsSync (p : string)
  | ReadFileSync (p : string).

(** ** Requests and responses *)

(** A parsed query-string value ([req.query.k]). *)
Inductive qvalue : Type :=
  | QStr (s : string)
  | QArr (items : list qvalue)
  | QObj (fields : list (string * qvalue)).

(** The Express request as a handler sees it: [path] is [req.path] (below
    the mount point for a mounted middleware), [headers] has lower-case
    names, a missing key of [headers] or [query] reads as [undefined],
    [req_body] is what a body parser left in [req.body]. *)
Record request : Type := Request {
  path : string;
  headers : gmap string string;
  query : gmap string qvalue;
  req_body : value
}.

(** A body: a JSON text, carried by the value it denotes, a plain text, or
    nothing. *)
Inductive payload : Type :=
  | Json (v : value)
  | Text (s : string)
  | Empty.

Record response : Type := Response {
  statusCode : Z;
  body : payload
}.

(** Whether a number, given by its text, is finite. *)
Definition finite (repr : string) : bool :=
  negb (String.eqb repr "Infinity" || String.eqb repr "-Infinity"
        || String.eqb repr "NaN").

(** [JSON.stringify(v)], the text carried by the value it denotes; [None]
    where JavaScript returns [undefined].  A number that is not finite is
    written [null]; so is an [undefined] element of an array; a property
    whose value is [undefined] is left out.  No value here is callable, so
    no [toJSON] is ever called. *)
Fixpoint JSON_stringify (v : value) : option value :=
  match v with
  | VUndefined => None
  | VNull => Some VNull
  | VBool b => Some (VBool b)
  | VNum repr => Some (if finite repr then VNum repr else VNull)
  | VStr s => Some (VStr s)
  | VArr elems => Some (VArr (map (λ e, default VNull (JSON_stringify e)) elems))
  | VObj props =>
      Some (VObj (omap (λ kv, match JSON_stringify kv.2 with
                              | Some j => Some (kv.1, j)
                              | None => None
                              end) props))
  end.

(** The properties of the JSON text of an object. *)
Definition sent (o : list (string * value)) : list (string * value) :=
  omap (λ kv, match JSON_stringify kv.2 with
              | Some j => Some (kv.1, j)
              | None => None
              end) o.

(** A value that holds neither [undefined] nor a number that is not
    finite. *)
Fixpoint plain_json (v : value) : bool :=
  match v with
  | VUndefined => false
  | VNull | VBool _ | VStr _ => true
  | VNum repr => finite repr
  | VArr elems => forallb plain_json elems
  | VObj props => forallb (λ kv, plain_json kv.2) props
  end.

(** [res] before anything is set. *)
Definition res : Z := 200.
(** [res.status(c)], [res.json(v)], [res.send(s)].  [res.json] sends the
    text [JSON.stringify(v)], and no body when there is none. *)
Definition status (c : Z) (_ : Z) : Z := c.
Definition json (v : value) (code : Z) : response :=
  Response code (match JSON_stringify v with
                 | Some j => Json j
                 | None => Empty
                 end).
Definition send (s : string) (code : Z) : response := Response code (Text s).

(** ** cdn.js *)

(** A middleware either answers or calls [next()]. *)
Inductive outcome : Type :=
  | Respond (r : response)
  | Next.

(** [token !== 'secure-signature'] *)
Definition strict_neq_str (v : option qvalue) (s : string) : bool :=
  match v with
  | Some (QStr t) => negb (String.eqb t s)
  | _ => true
  end.

Definition secureGuard (_ : process) (req : request) : list event * outcome :=
  let token := query req !! "token" in
  if strict_neq_str token "secure-signature" then
    ([ConsoleLog ("🛑 Blocked access to " +:+ path req +:+ " (Missing/Invalid Token)")],
     Respond (send "Forbidden: Invalid Signature" (status 403 res)))
  else
    ([ConsoleLog ("✅ Serving " +:+ path req)], Next).

Definition forbidden : response :=
  Response 403 (Text "Forbidden: Invalid Signature").

(** ** Effects: a log of events, the process read-only, exceptions *)

Definition js (A : Type) : Type := process → list event * result A.

#[export] Instance js_ret : MRet js := λ A a _, ([], Ok a).
#[export] Instance js_bind : MBind js := λ A B k m p,
  match m p with
  | (t, Ok a) => let '(t', r) := k a p in (t ++ t', r)
  | (t, Throw e) => (t, Throw e)
  end.

Definition lift {A} (r : result A) : js A := λ _, ([], r).
Definition emit (e : event) : js unit := λ _, ([e], Ok tt).
Definition ask : js process := λ p, ([], Ok p).

(** [try { m } catch (err) { h err }] *)
Definition try_catch {A} (m : js A) (h : exn → js A) : js A := λ p,
  match m p with
  | (t, Ok a) => (t, Ok a)
  | (t, Throw e) => let '(t', r) := h e p in (t ++ t', r)
  end.

Definition console_log (line : string) : js unit := emit (ConsoleLog line).
Definition console_error (line : string) (err : exn) : js unit :=
  emit (ConsoleError line err).

(** [fs.existsSync] and [fs.readFileSync(f, 'utf8')], which throws on a
    directory or a missing file. *)
Definition existsSync (f : string) : js bool := λ p,
  ([ExistsSync f], Ok (bool_decide (is_Some (fs p !! f)))).
Definition readFileSync (f : string) : js text := λ p,
  ([ReadFileSync f],
   match fs p !! f with
   | Some (File c) => Ok c
   | _ => Throw FsError
   end).

(** ** path.join (POSIX) *)

Fixpoint split_on (sep : ascii) (s : string) : list string :=
  match s with
  | EmptyString => [""]
  | String c s' =>
      if Ascii.eqb c sep then "" :: split_on sep s'
      else match split_on sep s' with
           | h :: t => String c h :: t
           | [] => [String c ""]
           end
  end.

Fixpoint join_with (sep : string) (l : list string) : string :=
  match l with
  | [] => ""
  | [x] => x
  | x :: rest => x +:+ sep +:+ join_with sep rest
  end.

Definition last_char_is (c : ascii) (s : string) : bool :=
  match last (String.list_ascii_of_string s) with
  | Some d => Ascii.eqb c d
  | None => false
  end.

(** One segment of [normalizeString]; [stack] holds the kept segments,
    last first. *)
Definition norm_step (allowAboveRoot : bool) (stack : list string) (seg : string)
  : list string :=
  if String.eqb seg "" || String.eqb seg "." then stack
  else if String.eqb seg ".." then
    match stack with
    | top :: rest =>
        if String.eqb top ".." then ".." :: stack else rest
    | [] => if allowAboveRoot then [".."] else []
    end
  else seg :: stack.

Definition normalize (p : string) : string :=
  match p with
  | EmptyString => "."
  | String c _ =>
      let isAbsolute := Ascii.eqb c "/"%char in
      let trailingSeparator := last_char_is "/"%char p in
      let segs := rev (foldl (norm_step (negb isAbsolute)) [] (split_on "/"%char p)) in
      let q := join_with "/" segs in
      match q with
      | EmptyString =>
          if isAbsolute then "/" else if trailingSeparator then "./" else "."
      | _ =>
          let q' := if trailingSeparator then q +:+ "/" else q in
          if isAbsolute then "/" +:+ q' else q'
      end
  end.

Definition path_join (args : list string) : string :=
  match filter (λ a, a ≠ "") args with
  | [] => "."
  | parts => normalize (join_with "/" parts)
  end.

(** ** Objects, property reads, string conversion, spread *)

(** [o[k]] on the own properties; [undefined] when there is none. *)
Fixpoint obj_get (k : string) (o : list (string * value)) : value :=
  match o with
  | [] => VUndefined
  | (k', v) :: rest => if String.eqb k' k then v else obj_get k rest
  end.

Fixpoint has_own (k : string) (o : list (string * value)) : bool :=
  match o with
  | [] => false
  | (k', _) :: rest => String.eqb k' k || has_own k rest
  end.

(** [o[k] = v]: an existing property keeps its place, a new one goes last. *)
Fixpoint obj_set (k : string) (v : value) (o : list (string * value))
  : list (string * value) :=
  match o with
  | [] => [(k, v)]
  | (k', v') :: rest =>
      if String.eqb k' k then (k', v) :: rest else (k', v') :: obj_set k v rest
  end.

(** [x.k] for a key [k] that no built-in prototype defines. *)
Definition get_prop (x : value) (k : string) : result value :=
  match x with
  | VUndefined | VNull => Throw TypeError
  | VObj o => Ok (obj_get k o)
  | _ => Ok VUndefined
  end.

(** The conversion a template literal applies.  An array joins its
    elements with commas, [null] and [undefined] elements as the empty
    string; a parsed object answers ["[object Object]"] unless it has an own
    (never callable) [toString] property, in which case no conversion to a
    primitive exists. *)
Fixpoint ToString (x : value) : result string :=
  match x with
  | VUndefined => Ok "undefined"
  | VNull => Ok "null"
  | VBool b => Ok (if b then "true" else "false")
  | VNum repr => Ok repr
  | VStr s => Ok s
  | VArr elems =>
      (fix join (l : list value) : result string :=
         match l with
         | [] => Ok ""
         | e :: rest =>
             let first :=
               match e with
               | VUndefined | VNull => Ok ""
               | _ => ToString e
               end in
             match first, rest with
             | Throw err, _ => Throw err
             | Ok s, [] => Ok s
             | Ok s, _ =>
                 match join rest with
                 | Ok t => Ok (s +:+ "," +:+ t)
                 | Throw err => Throw err
                 end
             end
         end) elems
  | VObj o => if has_own "toString" o then Throw TypeError else Ok "[object Object]"
  end.

(** The three bytes of a code unit from U+0800 up. *)
Definition three_bytes (u : N) : string :=
  String (ascii_of_N (224 + u / 4096))
    (String (ascii_of_N (128 + (u / 64) mod 64))
       (String (ascii_of_N (128 + u mod 64)) ""))%N.

(** The UTF-16 code units of a string, each as the string that holds it
    alone: a character of one, two or three bytes is one code unit, a
    character of four bytes is two, its surrogates.  (On bytes that are not
    well formed, a stray byte counts as one code unit and a truncated
    character as one.) *)
Fixpoint code_units (s : string) : list string :=
  match s with
  | EmptyString => []
  | String a s1 =>
      let n := N_of_ascii a in
      if (n <? 192)%N then String a "" :: code_units s1
      else if (n <? 224)%N then
        match s1 with
        | String b s2 => String a (String b "") :: code_units s2
        | EmptyString => [s]
        end
      else if (n <? 240)%N then
        match s1 with
        | String b (String c s3) => String a (String b (String c "")) :: code_units s3
        | _ => [s]
        end
      else
        match s1 with
        | String b (String c (String d s4)) =>
            let point :=
              ((n mod 8) * 262144 + (N_of_ascii b mod 64) * 4096
               + (N_of_ascii c mod 64) * 64 + N_of_ascii d mod 64)%N in
            let v := (point - 65536)%N in
            three_bytes (55296 + v / 1024) :: three_bytes (56320 + v mod 1024)
              :: code_units s4
        | _ => [s]
        end
  end.

(** The own enumerable properties that [{...x}] copies, in order: those of
    an object, the elements of an array, the code units of a string. *)
Definition own_enumerable (x : value) : list (string * value) :=
  match x with
  | VObj o => o
  | VArr elems => imap (λ i e, (pretty i, e)) elems
  | VStr s => imap (λ i u, (pretty i, VStr u)) (code_units s)
  | _ => []
  end.

(** [{...x}] continued into [target]. *)
Definition spread (x : value) (target : list (string * value)) : list (string * value) :=
  foldl (λ acc kv, obj_set kv.1 kv.2 acc) target (own_enumerable x).

(** ** api.js *)

Definition STORAGE_PATH : js string :=
  p ← ask; mret (path_join [dirname p; "../cdn-server/storage"]).

(** [h || d] on a header read. *)
Definition or_default (h : option string) (d : string) : string :=
  match h with
  | Some s => if String.eqb s "" then d else s
  | None => d
  end.

(** [req.headers.authorization !== s] *)
Definition header_neq (h : option string) (s : string) : bool :=
  match h with
  | Some t => negb (String.eqb t s)
  | None => true
  end.

Definition GET_check (req : request) : js response :=
  _ ← console_log "🔎 App requested update check...";
  if header_neq (headers req !! "authorization") "Bearer my-secret-user" then
    mret (json (VObj [("error", VStr "Unauthorized")]) (status 401 res))
  else
    let platform := or_default (headers req !! "x-app-platform") "android" in
    root ← STORAGE_PATH;
    let metadataPath := path_join [root; platform; "metadata.json"] in
    found ← existsSync metadataPath;
    if negb found then
      _ ← console_log ("⚠️ Metadata not found at " +:+ metadataPath);
      mret (json (VObj [("update", VBool false)]) res)
    else
      try_catch
        (content ← readFileSync metadataPath;
         metadata ← lift (JSON_parse content);
         fileUrl ← lift (get_prop metadata "fileUrl");
         prefix ← lift (ToString fileUrl);
         let signedUrl := prefix +:+ "?token=secure-signature" in
         _ ← console_log "✍️  Signed URL generated";
         mret (json (VObj (obj_set "fileUrl" (VStr signedUrl) (spread metadata []))) res))
        (λ err,
         _ ← console_error "Error reading metadata:" err;
         mret (json (VObj [("error", VStr "Internal Server Error")]) (status 500 res))).

(** The path the handler computes for a request, as a function of its own. *)
Definition metadata_path (p : process) (req : request) : string :=
  path_join [path_join [dirname p; "../cdn-server/storage"];
             or_default (headers req !! "x-app-platform") "android";
             "metadata.json"].

Definition signature_suffix : string := "?token=secure-signature".

Definition log_request : event := ConsoleLog "🔎 App requested update check...".
Definition log_signed : event := ConsoleLog "✍️  Signed URL generated".

Definition valid_credential (req : request) : Prop :=
  headers req !! "authorization" = Some "Bearer my-secret-user".

#[export] Instance valid_credential_dec req : Decision (valid_credential req).
Proof. unfold valid_credential. apply _. Defined.

(** What the [try] block computes from the node at the metadata path. *)
Definition signed_body (metadata : value) (prefix : string) : value :=
  VObj (obj_set "fileUrl" (VStr (prefix +:+ signature_suffix)) (spread metadata [])).

Definition read_metadata (node : fsnode) : result (value * string) :=
  match node with
  | Dir => Throw FsError
  | File c =>
      match JSON_parse c with
      | Throw e => Throw e
      | Ok metadata =>
          match get_prop metadata "fileUrl" with
          | Throw e => Throw e
          | Ok fileUrl =>
              match ToString fileUrl with
              | Throw e => Throw e
              | Ok prefix => Ok (metadata, prefix)
              end
          end
      end
  end.

Definition touches_fs (e : event) : bool :=
  match e with
  | ExistsSync _ | ReadFileSync _ => true
  | _ => false
  end.

Definition unauthorized : response :=
  Response 401 (Json (VObj [("error", VStr "Unauthorized")])).

Definition no_update : response :=
  Response 200 (Json (VObj [("update", VBool false)])).

(** ** From a URL to the query the storage server sees *)

Fixpoint occurs (c : ascii) (s : string) : bool :=
  match s with
  | EmptyString => false
  | String d s' => Ascii.eqb d c || occurs c s'
  end.

(** [s] up to the first [c], and what follows that [c] if there is one. *)
Fixpoint cut_at (c : ascii) (s : string) : string * option string :=
  match s with
  | EmptyString => ("", None)
  | String d s' =>
      if Ascii.eqb d c then ("", Some s')
      else let '(a, b) := cut_at c s' in (String d a, b)
  end.

(** The query string of the request made for URL [u]: a fragment (from the
    first [#]) is never part of the request target, and the query runs from
    the first [?] of what remains; [None] when there is no [?]. *)
Definition url_query (u : string) : option string :=
  (cut_at "?"%char (cut_at "#"%char u).1).2.

Definition parse_pair (part : string) : string * qvalue :=
  let '(k, v) := cut_at "="%char part in (k, QStr (default "" v)).

(** The query parser of Express on the queries where nothing is decoded or
    nested: pairs [k=v] separated by [&], no [%], [+], [[] or []], keys
    distinct, not empty and not [__proto__], at most 1000 pairs.  [None]
    outside that fragment, which this development does not model. *)
Definition qs_parse (q : string) : option (gmap string qvalue) :=
  if String.eqb q "" then Some ∅
  else
    let pairs := parse_pair <$> split_on "&"%char q in
    if bool_decide (Forall (λ c, occurs c q = false) ["%"; "+"; "["; "]"]%char
                    ∧ NoDup pairs.*1
                    ∧ Forall (λ k, k ≠ "" ∧ k ≠ "__proto__") pairs.*1
                    ∧ (length pairs ≤ 1000)%nat)
    then Some (list_to_map pairs)
    else None.

(** [req.query] of the request made for URL [u]. *)
Definition query_of_url (u : string) : option (gmap string qvalue) :=
  match url_query u with
  | None => Some ∅
  | Some q => qs_parse q
  end.

(** The expiry rule of C4, for a reading [expiresAt] of the expiry time a
    token carries: a token whose expiry is not after the clock of the
    verifying process is answered by the guard, not passed on. *)
Definition denies_expired (expiresAt : string → option Z) : Prop :=
  ∀ p req t e,
    query req !! "token" = Some (QStr t) →
    expiresAt t = Some e →
    e ≤ clock p →
    ∃ r, (secureGuard p req).2 = Respond r.

(** ** A deployment as [deploy.js] leaves it *)

Definition deployed_metadata : value :=
  VObj [("id", VStr "v200");
        ("version", VStr "2.0.0");
        ("fileUrl", VStr "http://10.0.2.2:4000/files/android/update.zip");
        ("fileHash", VStr "9f86d081884c7d659a2feaa0c55ad015a3bf4f1b2b0b822cd15d6c15b0f00a08");
        ("status", VStr "UPDATE");
        ("force", VBool false)].

Definition deployed_props : list (string * value) := own_enumerable deployed_metadata.

Definition deployed_signed : list (string * value) :=
  [("id", VStr "v200");
   ("version", VStr "2.0.0");
   ("fileUrl", VStr "http://10.0.2.2:4000/files/android/update.zip?token=secure-signature");
   ("fileHash", VStr "9f86d081884c7d659a2feaa0c55ad015a3bf4f1b2b0b822cd15d6c15b0f00a08");
   ("status", VStr "UPDATE");
   ("force", VBool false)].

Definition api_process : process :=
  Process "/srv/local-system/api-server"
    {[ "/srv/local-system/cdn-server/storage/android" := Dir;
       "/srv/local-system/cdn-server/storage/android/metadata.json"
         := File (Utf8 (Ok deployed_metadata)) ]}
    1700000000000.

Definition cdn_process : process :=
  Process "/srv/local-system/cdn-server"
    {[ "/srv/local-system/cdn-server/storage/android" := Dir;
       "/srv/local-system/cdn-server/storage/android/metadata.json"
         := File (Utf8 (Ok deployed_metadata)) ]}
    1700000000000.

(** The same process eight thousand years on. *)
Definition cdn_process_year_9999 : process :=
  Process (dirname cdn_process) (fs cdn_process) 253402300799000.

(** A record whose file URL ends in a fragment. *)
Definition anchored_url : string := "http://10.0.2.2:4000/files/android/update.zip#v200".

Definition anchored_process : process :=
  Process "/srv/local-system/api-server"
    {[ "/srv/local-system/cdn-server/storage/android/metadata.json"
         := File (Utf8 (Ok (VObj [("version", VStr "2.0.0"); ("fileUrl", VStr anchored_url)]))) ]}
    1700000000000.



Definition authorized_request : request :=
  Request "/check" {[ "authorization" := "Bearer my-secret-user" ]} ∅ VUndefined.

Definition anonymous_request : request := Request "/check" ∅ ∅ VUndefined.

Definition ios_request : request :=
  Request "/check"
    {[ "authorization" := "Bearer my-secret-user"; "x-app-platform" := "ios" ]} ∅
    VUndefined.

(** A client that reports the version the server already offers. *)
Definition up_to_date_request : request :=
  Request "/check"
    {[ "authorization" := "Bearer my-secret-user";
       "x-app-platform" := "android";
       "x-app-version" := "2.0.0" ]}
    {[ "version" := QStr "2.0.0" ]}
    (VObj [("version", VStr "2.0.0")]).

(** A client that reports an older version. *)
Definition outdated_request : request :=
  Request "/check"
    {[ "authorization" := "Bearer my-secret-user";
       "x-app-platform" := "android";
       "x-app-version" := "1.0.0" ]}
    {[ "version" := QStr "1.0.0" ]}
    (VObj [("version", VStr "1.0.0")]).

Definition android_download : request :=
  Request "/android/update.zip" ∅ {[ "token" := QStr "secure-signature" ]} VUndefined.
Definition ios_download : request :=
  Request "/ios/update.zip" ∅ {[ "token" := QStr "secure-signature" ]} VUndefined.
Definition bare_download : request :=
  Request "/android/update.zip" ∅ ∅ VUndefined.
Definition guessed_download : request :=
  Request "/android/update.zip" {[ "authorization" := "Bearer my-secret-user" ]}
    {[ "token" := QStr "secure-signature " ]} VUndefined.

(** * The deployment script, the client and the repository layout *)

(** ** Directory layouts *)

(** A path segment that [normalizeString] keeps as it is. *)
Definition clean (seg : string) : bool :=
  negb (String.eqb seg "") && negb (occurs "/" seg)
  && negb (String.eqb seg ".") && negb (String.eqb seg "..").

(** The absolute POSIX path with the given segments. *)
Definition abs_path (segs : list string) : string := "/" +:+ join_with "/" segs.

(** A non-empty string without separator: one element of a relative path. *)
Definition segment (s : string) : Prop := s ≠ "" ∧ occurs "/" s = false.

(** The repository's directories under a root with segments [base]. *)
Definition api_dir (base : list string) : string :=
  abs_path (base ++ ["local-system"; "api-server"]).
Definition cdn_dir (base : list string) : string :=
  abs_path (base ++ ["local-system"; "cdn-server"]).
Definition storage_path (base rel : list string) : string :=
  abs_path (base ++ ["local-system"; "cdn-server"; "storage"] ++ rel).

(** ** deploy.js *)

(** [s.replace(/c/g, '')] for a one-character pattern. *)
Fixpoint remove_char (c : ascii) (s : string) : string :=
  match s with
  | EmptyString => ""
  | String d s' => if Ascii.eqb d c then remove_char c s' else String d (remove_char c s')
  end.

Definition deploy_id (VERSION : string) : string := "v" +:+ remove_char "." VERSION.

Definition deploy_metadata (VERSION hexHash : string) : value :=
  VObj [("id", VStr (deploy_id VERSION));
        ("version", VStr VERSION);
        ("fileUrl", VStr "http://10.0.2.2:4000/files/android/update.zip");
        ("fileHash", VStr hexHash);
        ("status", VStr "UPDATE");
        ("force", VBool false)].

(** What a file holds: bytes, or the text [JSON.stringify(v, null, 4)] of a
    value built from strings and booleans, carried by that value. *)
Inductive content : Type :=
  | Raw (bytes : string)
  | JsonText (v : value).

Inductive dnode : Type :=
  | DDir
  | DFile (c : content).

Inductive fs_op : Type := OpMkdir | OpUnlink | OpRead | OpWrite.

Inductive failure : Type :=
  | ExecFailed (cmd : string)
  | FsFailed (op : fs_op) (p : string).

Inductive attempt (A : Type) : Type :=
  | Done (a : A)
  | Failed (f : failure).
Arguments Done {A} a.
Arguments Failed {A} f.

(** What a failed write leaves at its target: nothing new when it failed
    before the file was opened; part of the data when it failed later, the
    file having been emptied when it was opened; and, for [copyFileSync],
    which tries to remove its destination after an error, no file. *)
Inductive leftover : Type :=
  | Untouched
  | Partial (c : content)
  | Removed.

(** What the script relies on and does not define: the digest
    ([crypto.createHash('sha256')...digest('hex')]); whether the system
    lets a file operation through; what a failed [writeFileSync] leaves of
    the file ([Untouched] or [Partial], any other answer read as
    [Untouched]) and what a failed [copyFileSync] leaves of its
    destination; what a child process does to the disk, and whether it
    exits without error; and what [JSON.parse] makes of raw bytes. *)
Class Host : Type := {
  sha256_hex : content → string;
  permits : fs_op → string → gmap string dnode → bool;
  write_leaves : string → content → gmap string dnode → leftover;
  copy_leaves : string → content → gmap string dnode → leftover;
  child_process : string → gmap string dnode → gmap string dnode * bool;
  parse_raw : string → result value
}.

Inductive line : Type :=
  | Out (s : string)
  | Err (s : string)
  | ErrWith (s : string) (f : failure)
  | Ran (cmd : string).

(** The script's effects: it prints, changes the disk, and may throw; the
    disk keeps what was done before a throw. *)
Definition sh (A : Type) : Type :=
  gmap string dnode → list line * gmap string dnode * attempt A.

#[export] Instance sh_ret : MRet sh := λ A a d, ([], d, Done a).
#[export] Instance sh_bind : MBind sh := λ A B k m d,
  match m d with
  | (t, d', Done a) => let '(t', d'', r) := k a d' in (t ++ t', d'', r)
  | (t, d', Failed f) => (t, d', Failed f)
  end.

Definition sh_catch {A} (m : sh A) (h : failure → sh A) : sh A := λ d,
  match m d with
  | (t, d', Done a) => (t, d', Done a)
  | (t, d', Failed f) => let '(t', d'', r) := h f d' in (t ++ t', d'', r)
  end.

Definition say (l : line) : sh unit := λ d, ([l], d, Done tt).

(** [if (b) m;] *)
Definition when (b : bool) (m : sh unit) : sh unit := if b then m else mret tt.

Definition completion_line : line := Out "✅ Deployment Complete!".

(** The disk after an operation on [f] failed leaving [l]. *)
Definition left_with (f : string) (l : leftover) (d : gmap string dnode)
  : gmap string dnode :=
  match l with
  | Untouched => d
  | Partial c => <[f := DFile c]> d
  | Removed => delete f d
  end.

(** A step that, however it ends, leaves file [f] as it was and does not
    print the completion line. *)
Definition quiet {A} (f : string) (m : sh A) : Prop :=
  ∀ d t d' r, m d = (t, d', r) → d' !! f = d !! f ∧ completion_line ∉ t.

(** A computation that cannot fail. *)
Definition unfailing {A} (m : sh A) : Prop :=
  ∀ d t d' e, m d ≠ (t, d', Failed e).

Section DeployScript.
Context `{Host}.

(** [execSync(cmd, {stdio: 'inherit'})] throws when the command exits with
    an error; what the command did to the disk by then stays done. *)
Definition execSync (cmd : string) : sh unit := λ d,
  let '(d', ok) := child_process cmd d in
  ([Ran cmd], d', if ok then Done tt else Failed (ExecFailed cmd)).

Definition d_existsSync (f : string) : sh bool := λ d,
  ([], d, Done (bool_decide (is_Some (d !! f)))).

Definition mkdirSync (f : string) : sh unit := λ d,
  if permits OpMkdir f d then ([], <[f := DDir]> d, Done tt)
  else ([], d, Failed (FsFailed OpMkdir f)).

Definition unlinkSync (f : string) : sh unit := λ d,
  if permits OpUnlink f d then ([], delete f d, Done tt)
  else ([], d, Failed (FsFailed OpUnlink f)).

(** [fs.readFileSync(f)], the whole content. *)
Definition d_readFileSync (f : string) : sh content := λ d,
  match d !! f with
  | Some (DFile c) =>
      if permits OpRead f d then ([], d, Done c) else ([], d, Failed (FsFailed OpRead f))
  | _ => ([], d, Failed (FsFailed OpRead f))
  end.

(** What a failed [writeFileSync] leaves: the file as it was, or emptied
    and partly written; the write is not atomic. *)
Definition after_failed_write (f : string) (c : content) (d : gmap string dnode)
  : gmap string dnode :=
  match write_leaves f c d with
  | Partial c' => <[f := DFile c']> d
  | _ => d
  end.

Definition writeFileSync (f : string) (c : content) : sh unit := λ d,
  if permits OpWrite f d then ([], <[f := DFile c]> d, Done tt)
  else ([], after_failed_write f c d, Failed (FsFailed OpWrite f)).

(** [fs.copyFileSync(src, dest)]: the source is read, the destination
    written; a failure in writing leaves the destination as the host
    says. *)
Definition write_copy (dest : string) (c : content) : sh unit := λ d,
  if permits OpWrite dest d then ([], <[dest := DFile c]> d, Done tt)
  else ([], left_with dest (copy_leaves dest c d) d, Failed (FsFailed OpWrite dest)).

Definition copyFileSync (src dest : string) : sh unit :=
  c ← d_readFileSync src; write_copy dest c.

(** A computation that, when it fails, has not printed the completion
    line, and has left file [f] as it was unless what failed is the write
    of [f] itself, which leaves what a failed write leaves. *)
Definition safe {A} (f : string) (m : sh A) : Prop :=
  ∀ d t d' e, m d = (t, d', Failed e) →
    (completion_line ∉ t)
    ∧ (d' !! f = d !! f
       ∨ (e = FsFailed OpWrite f
          ∧ ∃ d0 c, d0 !! f = d !! f ∧ d' = after_failed_write f c d0)).

Definition DIST_DIR (PROJECT_ROOT : string) : string :=
  path_join [PROJECT_ROOT; "dist"].
Definition BUNDLE_FILE (PROJECT_ROOT : string) : string :=
  path_join [DIST_DIR PROJECT_ROOT; "index.android.bundle"].
Definition ZIP_FILE (PROJECT_ROOT : string) : string :=
  path_join [DIST_DIR PROJECT_ROOT; "update.zip"].
Definition CDN_ROOT (PROJECT_ROOT : string) : string :=
  path_join [PROJECT_ROOT; "../local-system/cdn-server/storage/android"].
Definition CDN_ZIP_DEST (PROJECT_ROOT : string) : string :=
  path_join [CDN_ROOT PROJECT_ROOT; "update.zip"].
Definition METADATA_FILE (PROJECT_ROOT : string) : string :=
  path_join [CDN_ROOT PROJECT_ROOT; "metadata.json"].

Definition bundle_command : string :=
  "npx react-native bundle --platform android --dev false --entry-file index.js --bundle-output dist/index.android.bundle".
Definition zip_command (PROJECT_ROOT : string) : string :=
  "powershell " +:+ String "034"%char
    ("Compress-Archive -Path '" +:+ BUNDLE_FILE PROJECT_ROOT
     +:+ "' -DestinationPath '" +:+ ZIP_FILE PROJECT_ROOT +:+ "' -Force"
     +:+ String "034"%char "").

(** How the process ends: [process.exit(code)], falling off the end
    (code 0), or an exception nobody caught. *)
Inductive ending : Type :=
  | Exit (code : Z)
  | Uncaught (f : failure).

(** The [try] block of the script. *)
Definition deploy_steps (VERSION PROJECT_ROOT : string) : sh unit :=
  _ ← say (Out "📦 Bundling React Native...");
  _ ← execSync bundle_command;
  _ ← say (Out "🤐 Zipping bundle...");
  stale ← d_existsSync (ZIP_FILE PROJECT_ROOT);
  _ ← when stale (unlinkSync (ZIP_FILE PROJECT_ROOT));
  _ ← execSync (zip_command PROJECT_ROOT);
  _ ← say (Out "#️⃣  Calculating Hash...");
  fileBuffer ← d_readFileSync (ZIP_FILE PROJECT_ROOT);
  let hexHash := sha256_hex fileBuffer in
  _ ← say (Out ("   Hash: " +:+ hexHash));
  _ ← say (Out "🚚 Moving to CDN...");
  _ ← copyFileSync (ZIP_FILE PROJECT_ROOT) (CDN_ZIP_DEST PROJECT_ROOT);
  _ ← say (Out "📝 Updating Metadata...");
  let metadata := deploy_metadata VERSION hexHash in
  _ ← writeFileSync (METADATA_FILE PROJECT_ROOT) (JsonText metadata);
  _ ← say (Out "✅ Deployment Complete!");
  _ ← say (Out ("   Version: " +:+ VERSION));
  _ ← say (Out "   URL: http://10.0.2.2:4000/files/android/update.zip");
  say (Out ("   Metadata updated at: " +:+ METADATA_FILE PROJECT_ROOT)).

(** The script, for [process.argv[2]] and its own [__dirname]. *)
Definition deploy (argv2 : option string) (PROJECT_ROOT : string)
  (d : gmap string dnode) : list line * gmap string dnode * ending :=
  let VERSION := default "" argv2 in
  if String.eqb VERSION "" then
    ([Err "❌ Please provide a version number. Usage: node deploy.js 2.0.1"], d, Exit 1)
  else
    let script : sh ending :=
      found ← d_existsSync (DIST_DIR PROJECT_ROOT);
      _ ← when (negb found) (mkdirSync (DIST_DIR PROJECT_ROOT));
      _ ← say (Out ("🚀 Starting Deployment for Version " +:+ VERSION +:+ "..."));
      sh_catch
        (_ ← deploy_steps VERSION PROJECT_ROOT; (mret (Exit 0) : sh ending))
        (λ error,
         _ ← say (ErrWith "❌ Deployment Failed:" error); (mret (Exit 1) : sh ending)) in
    match script d with
    | (t, d', Done e) => (t, d', e)
    | (t, d', Failed f) => (t, d', Uncaught f)
    end.

(** The disk as the API server's [fs] sees it. *)
Definition api_view (d : gmap string dnode) : gmap string fsnode :=
  (λ n, match n with
        | DDir => Dir
        | DFile (JsonText v) => File (Utf8 (Ok v))
        | DFile (Raw bytes) => File (Utf8 (parse_raw bytes))
        end) <$> d.
End DeployScript.

(** The lines a completed run prints, in order. *)
Definition success_lines (VERSION PROJECT_ROOT hexHash : string) : list line :=
  [Out "📦 Bundling React Native...";
   Ran bundle_command;
   Out "🤐 Zipping bundle...";
   Ran (zip_command PROJECT_ROOT);
   Out "#️⃣  Calculating Hash...";
   Out ("   Hash: " +:+ hexHash);
   Out "🚚 Moving to CDN...";
   Out "📝 Updating Metadata...";
   Out "✅ Deployment Complete!";
   Out ("   Version: " +:+ VERSION);
   Out "   URL: http://10.0.2.2:4000/files/android/update.zip";
   Out ("   Metadata updated at: " +:+ METADATA_FILE PROJECT_ROOT)].

(** ** A host for concrete runs *)

(** Every file operation is let through; the bundler leaves a bundle and
    the archiver a zip in [/work/OtaPoc/dist]; the digest is a stand-in. *)
Definition demo_host : Host := {|
  sha256_hex c :=
    match c with
    | Raw bytes => "sha256(" +:+ bytes +:+ ")"
    | JsonText _ => "sha256(json)"
    end;
  permits _ _ _ := true;
  write_leaves _ _ _ := Untouched;
  copy_leaves _ _ _ := Untouched;
  child_process cmd d :=
    if String.eqb cmd bundle_command
    then (<["/work/OtaPoc/dist/index.android.bundle" := DFile (Raw "bundle-2.0.1")]> d, true)
    else (<["/work/OtaPoc/dist/update.zip" := DFile (Raw "zip-2.0.1")]> d, true);
  parse_raw _ := Throw SyntaxError
|}.

(** A host on which every child process fails. *)
Definition broken_host : Host := {|
  sha256_hex _ := "";
  permits _ _ _ := true;
  write_leaves _ _ _ := Untouched;
  copy_leaves _ _ _ := Untouched;
  child_process _ d := (d, false);
  parse_raw _ := Throw SyntaxError
|}.

(** The demo host with a disk that fills up while [metadata.json] is
    written: the file has been opened, so emptied, and nothing of the new
    text reaches it. *)
Definition full_disk_host : Host := {|
  sha256_hex := @sha256_hex demo_host;
  permits op f _ :=
    match op with
    | OpWrite =>
        negb (String.eqb f "/work/local-system/cdn-server/storage/android/metadata.json")
    | _ => true
    end;
  write_leaves _ _ _ := Partial (Raw "");
  copy_leaves _ _ _ := Untouched;
  child_process := @child_process demo_host;
  parse_raw := @parse_raw demo_host
|}.

Definition demo_disk : gmap string dnode :=
  {[ "/work/OtaPoc" := DDir;
     "/work/local-system/cdn-server/storage/android" := DDir;
     "/work/local-system/cdn-server/storage/android/metadata.json"
       := DFile (JsonText deployed_metadata) ]}.

Definition demo_run : list line * gmap string dnode * ending :=
  @deploy demo_host (Some "2.0.1") (abs_path (["work"] ++ ["OtaPoc"])) demo_disk.

Definition broken_run : list line * gmap string dnode * ending :=
  @deploy broken_host (Some "2.0.1") (abs_path (["work"] ++ ["OtaPoc"])) demo_disk.

Definition full_disk_run : list line * gmap string dnode * ending :=
  @deploy full_disk_host (Some "2.0.1") (abs_path (["work"] ++ ["OtaPoc"])) demo_disk.

(** The API server on the disk the demo run leaves. *)
Definition demo_api_process : process :=
  Process (api_dir ["work"]) (@api_view demo_host demo_run.1.2) 1700000000000.

(** ** What makes the [try] block of [GET /check] throw *)

(** A node at the metadata path that cannot be turned into a signed answer,
    with the exception it raises: a directory, text that is not JSON, a
    value whose [fileUrl] cannot be read ([null]), or a [fileUrl] that has
    no string form. *)
Inductive unusable : fsnode → exn → Prop :=
  | unusable_directory : unusable Dir FsError
  | unusable_text c e :
      JSON_parse c = Throw e → unusable (File c) e
  | unusable_value c metadata e :
      JSON_parse c = Ok metadata →
      get_prop metadata "fileUrl" = Throw e →
      unusable (File c) e
  | unusable_fileUrl c metadata fileUrl e :
      JSON_parse c = Ok metadata →
      get_prop metadata "fileUrl" = Ok fileUrl →
      ToString fileUrl = Throw e →
      unusable (File c) e.

Definition internal_error : response :=
  Response 500 (Json (VObj [("error", VStr "Internal Server Error")])).





(** A process whose metadata path is a directory. *)
Definition directory_process : process :=
  Process "/srv/local-system/api-server"
    {[ "/srv/local-system/cdn-server/storage/android/metadata.json" := Dir ]}
    1700000000000.

(** A process whose metadata file holds the JSON text [true]. *)
Definition scalar_process : process :=
  Process "/srv/local-system/api-server"
    {[ "/srv/local-system/cdn-server/storage/android/metadata.json"
         := File (Utf8 (Ok (VBool true))) ]}
    1700000000000.

(** ** App.tsx *)

(** What the promises of the library settle to in one run of
    [checkUpdate]: [HotUpdater.checkForUpdate] resolves with an update
    object or with none, or rejects; [update.updateBundle] resolves or
    rejects.  A rejection carries an [Error], given by its message. *)
Inductive check_outcome : Type :=
  | UpdateFound
  | NoUpdate
  | CheckRejected (message : string).

Inductive bundle_outcome : Type :=
  | BundleApplied
  | BundleRejected (message : string).

Record hot_updater : Type := HotUpdater {
  checkForUpdate : check_outcome;
  updateBundle : bundle_outcome
}.

(** What [checkUpdate] does, in program order. *)
Inductive ui : Type :=
  | SetLoading (b : bool)
  | SetStatus (s : string)
  | CallCheckForUpdate (source : string) (requestHeaders : list (string * string))
  | CallUpdateBundle
  | AlertShown (title message button : string)
  | ConsoleErr (message : string).

(** The body of the [try] block: the actions done, and the message of the
    error that ended it, if one did. *)
Definition try_check (lib : hot_updater) : list ui * option string :=
  let call :=
    CallCheckForUpdate "http://10.0.2.2:3000/check"
      [("Authorization", "Bearer my-secret-user")] in
  match checkForUpdate lib with
  | CheckRejected e => ([call], Some e)
  | NoUpdate => ([call; SetStatus "No update available on server."], None)
  | UpdateFound =>
      match updateBundle lib with
      | BundleRejected e =>
          ([call; SetStatus "Found update! Downloading..."; CallUpdateBundle], Some e)
      | BundleApplied =>
          ([call; SetStatus "Found update! Downloading..."; CallUpdateBundle;
            AlertShown "Update Ready"
              "The app will now restart to apply the update." "OK";
            SetStatus "Update applied. Restarting..."],
           None)
      end
  end.

Definition checkUpdate (lib : hot_updater) : list ui :=
  [SetLoading true; SetStatus "Checking API..."]
  ++ (let '(done, thrown) := try_check lib in
      done ++ match thrown with
              | Some message => [SetStatus ("Error: " +:+ message); ConsoleErr message]
              | None => []
              end)
  ++ [SetLoading false].

(** The two pieces of component state, and what an action does to them. *)
Record app_state : Type := AppState {
  app_status : string;
  app_loading : bool
}.

Definition initial_state : app_state := AppState "Idle" false.

Definition act (st : app_state) (a : ui) : app_state :=
  match a with
  | SetLoading b => AppState (app_status st) b
  | SetStatus s => AppState s (app_loading st)
  | _ => st
  end.

(** The component renders the button only when nothing is loading. *)
Definition shows_button (st : app_state) : bool := negb (app_loading st).

(** A string without any character that structures a URL or a query. *)
Definition plain (s : string) : bool :=
  forallb (λ c, negb (occurs c s)) ["#"; "?"; "&"; "="; "%"; "+"; "["; "]"]%char.

(** A record whose file URL already has a query parameter. *)
Definition versioned_url : string := "http://10.0.2.2:4000/files/android/update.zip?v=2".

Definition versioned_process : process :=
  Process "/srv/local-system/api-server"
    {[ "/srv/local-system/cdn-server/storage/android/metadata.json"
         := File (Utf8 (Ok (VObj [("version", VStr "2.0.0"); ("fileUrl", VStr versioned_url)]))) ]}
    1700000000000.

(** * Properties *)

Example secureGuard_ex :
  secureGuard (Process "/srv" ∅ 0)
    (Request "/android/update.zip" ∅ {["token" := QStr "secure-signature"]} VUndefined)
  = ([ConsoleLog "✅ Serving /android/update.zip"], Next).
Proof. vm_compute. reflexivity. Qed.

Example path_join_storage :
  path_join ["/srv/local-system/api-server"; "../cdn-server/storage"]
  = "/srv/local-system/cdn-server/storage".
Proof. vm_compute. reflexivity. Qed.

Example path_join_dots :
  path_join ["a/b/"; "./x"; "../../../../c//"] = "../c/".
Proof. vm_compute. reflexivity. Qed.

Example ToString_array :
  ToString (VArr [VNum "1"; VNull; VArr [VStr "a"; VBool true]; VObj []])
  = Ok "1,,a,true,[object Object]".
Proof. vm_compute. reflexivity. Qed.

Example spread_string :
  spread (VStr "ab") [] = [("0", VStr "a"); ("1", VStr "b")].
Proof. vm_compute. reflexivity. Qed.

(** [{..."é😀"}] has three properties: one code unit for the two bytes of
    [é], two surrogates for the four bytes of the emoji. *)
Example spread_code_units :
  spread (VStr "é😀") []
  = [("0", VStr "é");
     ("1", VStr (String "237" (String "160" (String "189" ""))));
     ("2", VStr (String "237" (String "184" (String "128" ""))))].
Proof. vm_compute. reflexivity. Qed.

Example JSON_stringify_ex :
  JSON_stringify
    (VObj [("a", VNum "1e+21"); ("b", VNum "Infinity"); ("c", VUndefined);
           ("d", VArr [VUndefined; VNum "NaN"; VStr "x"])])
  = Some (VObj [("a", VNum "1e+21"); ("b", VNull);
                ("d", VArr [VNull; VNull; VStr "x"])]).
Proof. vm_compute. reflexivity. Qed.

Example query_of_url_signed :
  query_of_url "http://10.0.2.2:4000/files/android/update.zip?token=secure-signature"
  = Some {["token" := QStr "secure-signature"]}.
Proof. vm_compute. reflexivity. Qed.

Example query_of_url_two :
  (λ m, m !! "b") <$> query_of_url "/files/x?a=1&b=&c#d?token=t" = Some (Some (QStr "")).
Proof. vm_compute. reflexivity. Qed.

Example check_deployed :
  GET_check authorized_request api_process
  = ([ConsoleLog "🔎 App requested update check...";
      ExistsSync "/srv/local-system/cdn-server/storage/android/metadata.json";
      ReadFileSync "/srv/local-system/cdn-server/storage/android/metadata.json";
      ConsoleLog "✍️  Signed URL generated"],
     Ok (Response 200 (Json (VObj
       [("id", VStr "v200");
        ("version", VStr "2.0.0");
        ("fileUrl", VStr "http://10.0.2.2:4000/files/android/update.zip?token=secure-signature");
        ("fileHash", VStr "9f86d081884c7d659a2feaa0c55ad015a3bf4f1b2b0b822cd15d6c15b0f00a08");
        ("status", VStr "UPDATE");
        ("force", VBool false)])))).
Proof. vm_compute. reflexivity. Qed.

(** ** Objects *)

Lemma obj_get_set_eq k v o : obj_get k (obj_set k v o) = v.
Proof.
  induction o as [|[k' v'] o IH]; simpl.
  - by rewrite String.eqb_refl.
  - destruct (String.eqb k' k) eqn:E; simpl; by rewrite E.
Qed.

Lemma obj_get_set_ne k k' v o :
  k ≠ k' → obj_get k' (obj_set k v o) = obj_get k' o.
Proof.
  intros Hne. induction o as [|[k0 v0] o IH]; simpl.
  - destruct (String.eqb k k') eqn:E; [|done].
    by apply String.eqb_eq in E.
  - destruct (String.eqb k0 k) eqn:E; simpl; [|by rewrite IH].
    apply String.eqb_eq in E as ->.
    destruct (String.eqb k k') eqn:E'; [|done].
    by apply String.eqb_eq in E'.
Qed.


Lemma obj_set_fresh k v o : k ∉ o.*1 → obj_set k v o = o ++ [(k, v)].
Proof.
  induction o as [|[k' v'] o IH]; simpl; [done|].
  rewrite not_elem_of_cons. intros [Hne Hnin].
  destruct (String.eqb k' k) eqn:E.
  - apply String.eqb_eq in E. congruence.
  - by rewrite IH.
Qed.

Lemma copy_props_fresh acc o :
  NoDup (acc.*1 ++ o.*1) →
  foldl (λ a kv, obj_set kv.1 kv.2 a) acc o = acc ++ o.
Proof.
  revert acc. induction o as [|[k v] o IH]; intros acc Hnd; simpl.
  - by rewrite app_nil_r.
  - simpl in Hnd. rewrite obj_set_fresh.
    + rewrite IH; [by rewrite <- app_assoc|].
      rewrite fmap_app; simpl. by rewrite <- app_assoc.
    + apply NoDup_app in Hnd as (_ & Hdisj & _).
      intros Hin. apply (Hdisj k Hin). left.
Qed.

(** Spreading a parsed object into a fresh one copies it as it is. *)
Lemma spread_obj o : NoDup o.*1 → spread (VObj o) [] = o.
Proof. intros Hnd. unfold spread; simpl. by rewrite copy_props_fresh. Qed.

(** ** What [res.json] sends *)

Lemma value_induction (P : value → Prop) :
  P VUndefined → P VNull → (∀ b, P (VBool b)) → (∀ r, P (VNum r)) →
  (∀ s, P (VStr s)) →
  (∀ l, Forall P l → P (VArr l)) →
  (∀ o, Forall (λ kv, P kv.2) o → P (VObj o)) →
  ∀ v, P v.
Proof.
  intros Hu Hn Hb Hr Hs Ha Ho. fix IH 1. intros v.
  destruct v as [| |b|r|s|l|o].
  - exact Hu.
  - exact Hn.
  - exact (Hb b).
  - exact (Hr r).
  - exact (Hs s).
  - apply Ha. induction l as [|e l IHl]; constructor; [exact (IH e)|exact IHl].
  - apply Ho. induction o as [|[k e] o IHo]; constructor; [exact (IH e)|exact IHo].
Qed.

Lemma json_obj o code : json (VObj o) code = Response code (Json (VObj (sent o))).
Proof. reflexivity. Qed.

Lemma sent_cons k v o :
  sent ((k, v) :: o)
  = match JSON_stringify v with
    | Some j => (k, j) :: sent o
    | None => sent o
    end.
Proof. unfold sent. simpl. by destruct (JSON_stringify v). Qed.


(** A value without [undefined] and without a number that is not finite is
    the value of its own JSON text. *)
Lemma plain_json_stringify v : plain_json v = true → JSON_stringify v = Some v.
Proof.
  induction v as [| |b|r|s|l IH|o IH] using value_induction; simpl; try done.
  - by intros ->.
  - intros Hall. do 2 f_equal.
    induction l as [|e l IHl]; [done|].
    simpl in Hall. apply andb_true_iff in Hall as [He Hl].
    inversion IH as [|?? IHe IHall]; subst. simpl.
    by rewrite (IHe He), (IHl IHall Hl).
  - intros Hall. change (Some (VObj (sent o)) = Some (VObj o)). do 2 f_equal.
    induction o as [|[k e] o IHo]; [done|].
    simpl in Hall. apply andb_true_iff in Hall as [He Ho].
    inversion IH as [|?? IHe IHall]; subst. simpl in IHe.
    by rewrite sent_cons, (IHe He), (IHo IHall Ho).
Qed.


(** A property that has a JSON text is sent with it. *)
Lemma obj_get_sent k o j :
  JSON_stringify (obj_get k o) = Some j →
  obj_get k (sent o) = j ∧ has_own k (sent o) = true.
Proof.
  induction o as [|[k' v] o IH]; [done|].
  rewrite sent_cons. cbn [obj_get].
  destruct (String.eqb k' k) eqn:E.
  - intros ->. simpl. by rewrite E.
  - intros Hj. destruct (JSON_stringify v); simpl; [rewrite E|]; by apply IH.
Qed.


Lemma obj_get_sent_plain k o :
  plain_json (obj_get k o) = true →
  obj_get k (sent o) = obj_get k o ∧ has_own k (sent o) = true.
Proof. intros Hplain. by apply obj_get_sent, plain_json_stringify. Qed.

(** ** Splitting URLs *)

Lemma occurs_app c s t : occurs c (s +:+ t) = occurs c s || occurs c t.
Proof. induction s as [|d s IH]; simpl; [done|]. by rewrite IH, orb_assoc. Qed.

Lemma cut_at_absent c s : occurs c s = false → cut_at c s = (s, None).
Proof.
  induction s as [|d s IH]; simpl; [done|].
  intros [E Hs]%orb_false_iff. by rewrite E, IH.
Qed.

Lemma cut_at_first c s t :
  occurs c s = false → cut_at c (s +:+ String c t) = (s, Some t).
Proof.
  induction s as [|d s IH]; simpl.
  - by rewrite Ascii.eqb_refl.
  - intros [E Hs]%orb_false_iff. by rewrite E, IH.
Qed.

Lemma url_query_appended u q :
  occurs "?" u = false → occurs "#" u = false → occurs "#" q = false →
  url_query (u +:+ String "?" q) = Some q.
Proof.
  intros Hq Hh Hhq. unfold url_query.
  rewrite (cut_at_absent "#"); simpl.
  - by rewrite cut_at_first.
  - rewrite occurs_app; simpl. by rewrite Hh, Hhq.
Qed.

Lemma query_of_signed_url u :
  occurs "?" u = false → occurs "#" u = false →
  query_of_url (u +:+ signature_suffix) = Some {["token" := QStr "secure-signature"]}.
Proof.
  intros Hq Hh. unfold query_of_url.
  change signature_suffix with (String "?" "token=secure-signature").
  rewrite url_query_appended by done. by vm_compute.
Qed.

(** ** The guard *)

Lemma strict_neq_str_false v s : strict_neq_str v s = false ↔ v = Some (QStr s).
Proof.
  destruct v as [[t|l|o]|]; simpl; try done.
  rewrite negb_false_iff, String.eqb_eq. split; congruence.
Qed.

Lemma secureGuard_outcome p req :
  (secureGuard p req).2
  = if strict_neq_str (query req !! "token") "secure-signature"
    then Respond forbidden else Next.
Proof. unfold secureGuard. by destruct (strict_neq_str _ _). Qed.

Lemma secureGuard_next p req :
  (secureGuard p req).2 = Next ↔ query req !! "token" = Some (QStr "secure-signature").
Proof.
  rewrite secureGuard_outcome, <- strict_neq_str_false.
  destruct (strict_neq_str _ _); split; congruence.
Qed.

Lemma secureGuard_respond p req r :
  (secureGuard p req).2 = Respond r →
  r = forbidden ∧ query req !! "token" ≠ Some (QStr "secure-signature").
Proof.
  rewrite secureGuard_outcome, <- strict_neq_str_false.
  destruct (strict_neq_str _ _); [|done]. intros [= <-]. split; congruence.
Qed.

(** ** The branches of [GET_check] *)

Lemma header_neq_false h s : header_neq h s = false ↔ h = Some s.
Proof.
  destruct h as [t|]; simpl; [|done].
  rewrite negb_false_iff, String.eqb_eq. naive_solver.
Qed.

Ltac run_check :=
  unfold GET_check, STORAGE_PATH, console_log, console_error, existsSync,
    readFileSync, try_catch, lift, emit, ask, mbind, mret, js_bind, js_ret;
  fold log_request log_signed.

Lemma check_rejected req p :
  ¬ valid_credential req →
  GET_check req p
  = ([log_request],
     Ok (Response 401 (Json (VObj [("error", VStr "Unauthorized")])))).
Proof.
  intros Hno. run_check.
  destruct (header_neq _ _) eqn:E; [done|].
  by apply header_neq_false in E.
Qed.

Lemma check_no_metadata req p :
  valid_credential req →
  fs p !! metadata_path p req = None →
  GET_check req p
  = ([log_request; ExistsSync (metadata_path p req);
      ConsoleLog ("⚠️ Metadata not found at " +:+ metadata_path p req)],
     Ok (Response 200 (Json (VObj [("update", VBool false)])))).
Proof.
  intros Hok%header_neq_false Hnone. run_check. rewrite Hok.
  fold (metadata_path p req). simpl. rewrite Hnone.
  rewrite bool_decide_eq_false_2; [done|]. by intros [? ?].
Qed.

Lemma check_with_metadata req p node :
  valid_credential req →
  fs p !! metadata_path p req = Some node →
  GET_check req p
  = match read_metadata node with
    | Ok (metadata, prefix) =>
        ([log_request; ExistsSync (metadata_path p req);
          ReadFileSync (metadata_path p req); log_signed],
         Ok (json (signed_body metadata prefix) res))
    | Throw e =>
        ([log_request; ExistsSync (metadata_path p req);
          ReadFileSync (metadata_path p req);
          ConsoleError "Error reading metadata:" e],
         Ok (Response 500 (Json (VObj [("error", VStr "Internal Server Error")]))))
    end.
Proof.
  intros Hok%header_neq_false Hnode. run_check. rewrite Hok.
  fold (metadata_path p req). simpl. rewrite Hnode.
  rewrite bool_decide_eq_true_2 by eauto. simpl. rewrite Hnode.
  destruct node as [|[parsed]]; simpl; [done|].
  destruct parsed as [metadata|e]; simpl; [|done].
  destruct (get_prop metadata "fileUrl") as [fileUrl|e]; simpl; [|done].
  destruct (ToString fileUrl) as [prefix|e]; simpl; done.
Qed.

(** The answer made from a record: status 200, and the JSON text of the
    record's properties with [fileUrl] set to the signed URL. *)
Lemma signed_answer metadata prefix :
  json (signed_body metadata prefix) res
  = Response 200 (Json (VObj (sent
      (obj_set "fileUrl" (VStr (prefix +:+ signature_suffix)) (spread metadata []))))).
Proof. reflexivity. Qed.

Lemma sent_fileUrl u o :
  obj_get "fileUrl" (sent (obj_set "fileUrl" (VStr u) o)) = VStr u.
Proof. apply obj_get_sent. by rewrite obj_get_set_eq. Qed.

Lemma check_reads_two_headers req req' p :
  headers req' !! "authorization" = headers req !! "authorization" →
  or_default (headers req' !! "x-app-platform") "android"
  = or_default (headers req !! "x-app-platform") "android" →
  GET_check req' p = GET_check req p.
Proof. intros Ha Hp. unfold GET_check. by rewrite Ha, Hp. Qed.

Lemma signed_body_not_update_false metadata prefix :
  json (signed_body metadata prefix) res ≠ Response 200 (Json (VObj [("update", VBool false)])).
Proof.
  rewrite signed_answer. intros [= Heq].
  pose proof (sent_fileUrl (prefix +:+ signature_suffix) (spread metadata [])) as Hget.
  rewrite Heq in Hget. discriminate Hget.
Qed.

(** The handler always answers: no exception leaves it. *)
Lemma check_always_answers req p : ∃ r, (GET_check req p).2 = Ok r.
Proof.
  destruct (decide (valid_credential req)) as [Hok|Hno].
  - destruct (fs p !! metadata_path p req) as [node|] eqn:Hnode.
    + rewrite (check_with_metadata _ _ _ Hok Hnode).
      destruct (read_metadata node) as [[metadata prefix]|e]; simpl; eauto.
    + rewrite check_no_metadata by done. simpl; eauto.
  - rewrite check_rejected by done. simpl; eauto.
Qed.

(** The answer over a record that is an object. *)
Lemma check_object_answer req p o original :
  valid_credential req →
  fs p !! metadata_path p req = Some (File (Utf8 (Ok (VObj o)))) →
  NoDup o.*1 →
  ToString (obj_get "fileUrl" o) = Ok original →
  GET_check req p
  = ([log_request; ExistsSync (metadata_path p req);
      ReadFileSync (metadata_path p req); log_signed],
     Ok (Response 200 (Json (VObj (sent
       (obj_set "fileUrl" (VStr (original +:+ "?token=secure-signature")) o)))))).
Proof.
  intros Hok Hnode Hnd Hstr.
  rewrite (check_with_metadata _ _ _ Hok Hnode). simpl. rewrite Hstr.
  rewrite signed_answer. by rewrite spread_obj.
Qed.

(** The answer over a record whose [fileUrl] is a string. *)
Lemma check_signs_string req p o u :
  valid_credential req →
  fs p !! metadata_path p req = Some (File (Utf8 (Ok (VObj o)))) →
  obj_get "fileUrl" o = VStr u →
  ∃ o', (GET_check req p).2 = Ok (Response 200 (Json (VObj o')))
        ∧ obj_get "fileUrl" o' = VStr (u +:+ "?token=secure-signature").
Proof.
  intros Hok Hnode Hurl.
  rewrite (check_with_metadata _ _ _ Hok Hnode). unfold read_metadata.
  cbn [JSON_parse get_prop]. rewrite Hurl. cbn [ToString]. rewrite signed_answer.
  eexists. split; [reflexivity|apply sent_fileUrl].
Qed.



Lemma sent_set_frame k u o k' :
  k' ≠ k → plain_json (obj_get k' o) = true →
  obj_get k' (sent (obj_set k (VStr u) o)) = obj_get k' o.
Proof.
  intros Hne Hplain.
  destruct (obj_get_sent_plain k' (obj_set k (VStr u) o)) as [Hget _];
    rewrite obj_get_set_ne in * by done; done.
Qed.


(** C2: the guard answers 403 exactly when [req.query.token] is not the
    string ['secure-signature'], it calls [next()] exactly when it is, and
    two requests with the same token get the same decision whatever their
    path, their headers and the clock of the process. *)
Theorem secureGuard_decides_on_token_alone p req :
  ((secureGuard p req).2 = Respond forbidden
   ↔ query req !! "token" ≠ Some (QStr "secure-signature"))
  ∧ ((secureGuard p req).2 = Next
     ↔ query req !! "token" = Some (QStr "secure-signature"))
  ∧ ∀ p' req', query req' !! "token" = query req !! "token" →
               (secureGuard p' req').2 = (secureGuard p req).2.
Proof.
  split; [|split].
  - rewrite secureGuard_outcome, <- strict_neq_str_false.
    destruct (strict_neq_str _ _); split; congruence.
  - apply secureGuard_next.
  - intros p' req' Htok. rewrite !secureGuard_outcome. by rewrite Htok.
Qed.

Lemma secureGuard_decides_on_token_alone_witness :
  query ios_download !! "token" = query android_download !! "token"
  ∧ (secureGuard api_process ios_download).2 = (secureGuard cdn_process android_download).2.
Proof.
  split; [by vm_compute|].
  apply (secureGuard_decides_on_token_alone cdn_process android_download). by vm_compute.
Defined.

(** C9: any two denials of the guard are the same response, status 403 with
    the one fixed body, whichever requests and processes they come from. *)
Theorem secureGuard_denials_identical p1 req1 p2 req2 r1 r2 :
  (secureGuard p1 req1).2 = Respond r1 →
  (secureGuard p2 req2).2 = Respond r2 →
  r1 = r2 ∧ statusCode r1 = 403 ∧ body r1 = Text "Forbidden: Invalid Signature".
Proof.
  intros [-> _]%secureGuard_respond [-> _]%secureGuard_respond. done.
Qed.

Lemma secureGuard_denials_identical_witness :
  (secureGuard cdn_process bare_download).2 = Respond forbidden
  ∧ (secureGuard api_process guessed_download).2 = Respond forbidden
  ∧ forbidden = forbidden ∧ statusCode forbidden = 403
  ∧ body forbidden = Text "Forbidden: Invalid Signature".
Proof.
  split; [by vm_compute|]. split; [by vm_compute|].
  apply (secureGuard_denials_identical cdn_process bare_download
           api_process guessed_download); by vm_compute.
Defined.

(** C1, as the code has it: the guard does not bind a token to a path; when
    it lets a request through, every request that carries the same token,
    whatever its path, is let through as well, the path showing only in the
    log line. *)
Theorem secureGuard_token_valid_for_every_path p a b :
  (secureGuard p a).2 = Next →
  query b !! "token" = query a !! "token" →
  secureGuard p b = ([ConsoleLog ("✅ Serving " +:+ path b)], Next).
Proof.
  intros Ha%secureGuard_next Hsame. unfold secureGuard.
  rewrite Hsame, Ha. reflexivity.
Qed.

(** C1 fails on the code: the token the guard accepts for
    [/android/update.zip] is accepted, not answered 403, for
    [/ios/update.zip]. *)
Lemma token_replayed_on_other_path :
  path ios_download ≠ path android_download
  ∧ query ios_download !! "token" = query android_download !! "token"
  ∧ (secureGuard cdn_process android_download).2 = Next
  ∧ (secureGuard cdn_process ios_download).2 = Next
  ∧ (secureGuard cdn_process ios_download).2 ≠ Respond forbidden.
Proof.
  split; [discriminate|]. split; [by vm_compute|]. split; [by vm_compute|].
  split; [by vm_compute|]. vm_compute. discriminate.
Qed.

Lemma secureGuard_token_valid_for_every_path_witness :
  (secureGuard cdn_process android_download).2 = Next
  ∧ query ios_download !! "token" = query android_download !! "token"
  ∧ secureGuard cdn_process ios_download
    = ([ConsoleLog ("✅ Serving " +:+ path ios_download)], Next).
Proof.
  split; [by vm_compute|]. split; [by vm_compute|].
  apply (secureGuard_token_valid_for_every_path cdn_process android_download ios_download);
    by vm_compute.
Defined.

(** C4, as the code has it: the guard reads no clock; a request it lets
    through in one process state is let through, with the same log line, in
    every other state, whatever the clock shows by then. *)
Theorem secureGuard_token_never_expires p req :
  (secureGuard p req).2 = Next →
  ∀ p', secureGuard p' req = ([ConsoleLog ("✅ Serving " +:+ path req)], Next)
        ∧ secureGuard p' req = secureGuard p req.
Proof.
  intros Hnext%secureGuard_next p'. unfold secureGuard.
  rewrite Hnext. split; reflexivity.
Qed.

(** C4 fails on the code: the token is let through at any clock value, so
    no expiry time that could be read into the accepted token is
    enforced. *)
Lemma expired_token_still_served :
  clock cdn_process < clock cdn_process_year_9999
  ∧ (secureGuard cdn_process_year_9999 android_download).2 = Next
  ∧ ¬ ∃ expiresAt, is_Some (expiresAt "secure-signature") ∧ denies_expired expiresAt.
Proof.
  split; [done|]. split; [by vm_compute|].
  intros (expiresAt & [e He] & Hrule).
  destruct (Hrule (Process "" ∅ e) android_download "secure-signature" e) as [r Hr];
    [by vm_compute|done|simpl; lia|].
  apply secureGuard_respond in Hr as [_ Hne]. apply Hne. by vm_compute.
Qed.

Lemma secureGuard_token_never_expires_witness :
  (secureGuard cdn_process android_download).2 = Next
  ∧ secureGuard cdn_process_year_9999 android_download
    = secureGuard cdn_process android_download.
Proof.
  split; [by vm_compute|].
  apply (secureGuard_token_never_expires cdn_process android_download); by vm_compute.
Defined.

(** ** The handler *)

(** C7: without the exact credential the handler answers 401 with the
    error body and stops there: its only effect is the first log line, no
    file-system call is made, and the outcome is the same whatever the
    process holds. *)
Theorem check_unauthorized_stops_first p req :
  headers req !! "authorization" ≠ Some "Bearer my-secret-user" →
  GET_check req p = ([log_request], Ok unauthorized)
  ∧ Forall (λ e, touches_fs e = false) (GET_check req p).1
  ∧ ∀ p', GET_check req p' = GET_check req p.
Proof.
  intros Hno. split; [by apply check_rejected|split].
  - rewrite check_rejected by done. by repeat constructor.
  - intros p'. by rewrite !check_rejected.
Qed.

Lemma check_unauthorized_stops_first_witness :
  headers anonymous_request !! "authorization" ≠ Some "Bearer my-secret-user"
  ∧ GET_check anonymous_request api_process = ([log_request], Ok unauthorized)
  ∧ Forall (λ e, touches_fs e = false) (GET_check anonymous_request api_process).1
  ∧ ∀ p', GET_check anonymous_request p' = GET_check anonymous_request api_process.
Proof.
  split; [by vm_compute|].
  apply (check_unauthorized_stops_first api_process anonymous_request). by vm_compute.
Defined.

(** C6: with a valid credential and no node at the platform's metadata
    path, the handler answers with status 200 and body [{update: false}];
    the existence test is its only file-system call. *)
Theorem check_absent_metadata_no_update p req :
  valid_credential req →
  fs p !! metadata_path p req = None →
  (GET_check req p).2 = Ok (Response 200 (Json (VObj [("update", VBool false)])))
  ∧ filter (λ e, touches_fs e = true) (GET_check req p).1
    = [ExistsSync (metadata_path p req)].
Proof.
  intros Hok Hnone. rewrite check_no_metadata by done. done.
Qed.

Lemma check_absent_metadata_no_update_witness :
  valid_credential ios_request
  ∧ fs api_process !! metadata_path api_process ios_request = None
  ∧ (GET_check ios_request api_process).2
    = Ok (Response 200 (Json (VObj [("update", VBool false)])))
  ∧ filter (λ e, touches_fs e = true) (GET_check ios_request api_process).1
    = [ExistsSync (metadata_path api_process ios_request)].
Proof.
  do 2 (split; [by vm_compute|]).
  apply (check_absent_metadata_no_update api_process ios_request); by vm_compute.
Defined.

(** C10: a request without the [x-app-platform] header, or with an empty
    one, is answered from the Android record.  Its metadata path is the
    Android one, and its whole outcome is that of the same request with the
    header set to ['android'].  With the credential, the handler tests
    [android/metadata.json] under the storage directory and touches no
    other path: with no node there it answers [{update: false}]; with a
    node there it reads it and answers 200 with the JSON text of the
    record, its [fileUrl] signed, or 500 when the record cannot be used.
    For a record that is an object with a string [fileUrl], the answer is
    200 and carries that URL signed and every plain field of the record
    as it is. *)
Theorem check_platform_defaults_to_android p req :
  headers req !! "x-app-platform" = None ∨ headers req !! "x-app-platform" = Some "" →
  let android :=
    Request (path req) (<["x-app-platform" := "android"]> (headers req))
      (query req) (req_body req) in
  let record :=
    path_join [path_join [dirname p; "../cdn-server/storage"]; "android"; "metadata.json"] in
  metadata_path p req = record
  ∧ GET_check req p = GET_check android p
  ∧ (valid_credential req →
     GET_check req p
     = match fs p !! record with
       | None =>
           ([log_request; ExistsSync record;
             ConsoleLog ("⚠️ Metadata not found at " +:+ record)],
            Ok no_update)
       | Some node =>
           match read_metadata node with
           | Ok (metadata, prefix) =>
               ([log_request; ExistsSync record; ReadFileSync record; log_signed],
                Ok (json (signed_body metadata prefix) res))
           | Throw e =>
               ([log_request; ExistsSync record; ReadFileSync record;
                 ConsoleError "Error reading metadata:" e],
                Ok internal_error)
           end
       end)
  ∧ (valid_credential req →
     ∀ o u,
       fs p !! record = Some (File (Utf8 (Ok (VObj o)))) →
       NoDup o.*1 →
       obj_get "fileUrl" o = VStr u →
       ∃ o',
         (GET_check req p).2 = Ok (Response 200 (Json (VObj o')))
         ∧ obj_get "fileUrl" o' = VStr (u +:+ "?token=secure-signature")
         ∧ ∀ k, k ≠ "fileUrl" → plain_json (obj_get k o) = true →
                obj_get k o' = obj_get k o).
Proof.
  intros Hhdr android record.
  assert (or_default (headers req !! "x-app-platform") "android" = "android") as Hdef.
  { by destruct Hhdr as [-> | ->]. }
  assert (metadata_path p req = record) as Hpath.
  { unfold metadata_path. by rewrite Hdef. }
  split; [done|]. split; [|split].
  - symmetry. apply check_reads_two_headers; simpl.
    + by rewrite lookup_insert_ne.
    + by rewrite lookup_insert_eq, Hdef.
  - intros Hok. rewrite <- Hpath.
    destruct (fs p !! metadata_path p req) as [node|] eqn:Hnode.
    + by rewrite (check_with_metadata _ _ _ Hok Hnode).
    + by rewrite check_no_metadata.
  - intros Hok o u Hnode Hnd Hurl. rewrite <- Hpath in Hnode.
    rewrite (check_object_answer _ _ _ u Hok Hnode Hnd) by (by rewrite Hurl).
    eexists. split; [reflexivity|]. split; [apply sent_fileUrl|].
    intros k Hk Hplain. by apply sent_set_frame.
Qed.

Lemma check_platform_defaults_to_android_witness :
  headers authorized_request !! "x-app-platform" = None
  ∧ valid_credential authorized_request
  ∧ metadata_path api_process authorized_request
    = "/srv/local-system/cdn-server/storage/android/metadata.json"
  ∧ GET_check authorized_request api_process
    = ([log_request;
        ExistsSync "/srv/local-system/cdn-server/storage/android/metadata.json";
        ReadFileSync "/srv/local-system/cdn-server/storage/android/metadata.json";
        log_signed],
       Ok (Response 200 (Json (VObj deployed_signed)))).
Proof.
  split; [by vm_compute|]. split; [by vm_compute|].
  destruct (check_platform_defaults_to_android api_process authorized_request)
    as (Hpath & _ & Hrun & _); [left; by vm_compute|].
  split; [rewrite Hpath; by vm_compute|].
  rewrite Hrun by (by vm_compute). by vm_compute.
Defined.




(** C3, as the code has it: when the record's file URL contains neither a
    [?] nor a [#], the handler's answer carries that URL followed by
    [?token=secure-signature], the request made for it has that token as
    its [token] query parameter, and the guard lets every such request
    through. *)
Theorem signed_url_passes_guard p req o u :
  valid_credential req →
  fs p !! metadata_path p req = Some (File (Utf8 (Ok (VObj o)))) →
  obj_get "fileUrl" o = VStr u →
  occurs "?" u = false →
  occurs "#" u = false →
  ∃ o' q,
    (GET_check req p).2 = Ok (Response 200 (Json (VObj o')))
    ∧ obj_get "fileUrl" o' = VStr (u +:+ "?token=secure-signature")
    ∧ query_of_url (u +:+ "?token=secure-signature") = Some q
    ∧ ∀ p' download, query download = q → (secureGuard p' download).2 = Next.
Proof.
  intros Hok Hnode Hurl Hq Hh.
  destruct (check_signs_string _ _ _ _ Hok Hnode Hurl) as (o' & Hresp & Hsigned).
  exists o', {["token" := QStr "secure-signature"]}.
  split; [done|]. split; [done|]. split.
  - by apply query_of_signed_url.
  - intros p' download Hquery. apply secureGuard_next.
    by rewrite Hquery, lookup_singleton_eq.
Qed.

(** C3 fails on the code for a file URL without query string but with a
    fragment: the appended token lands in the fragment, the request made
    for the signed URL has an empty query, and the guard answers 403. *)
Lemma signed_url_with_fragment_rejected :
  occurs "?" anchored_url = false
  ∧ (GET_check authorized_request anchored_process).2
    = Ok (Response 200 (Json (VObj
        [("version", VStr "2.0.0");
         ("fileUrl", VStr "http://10.0.2.2:4000/files/android/update.zip#v200?token=secure-signature")])))
  ∧ query_of_url "http://10.0.2.2:4000/files/android/update.zip#v200?token=secure-signature"
    = Some (query bare_download)
  ∧ (secureGuard cdn_process bare_download).2 = Respond forbidden.
Proof. repeat split; by vm_compute. Qed.

Lemma signed_url_passes_guard_witness :
  valid_credential authorized_request
  ∧ fs api_process !! metadata_path api_process authorized_request
    = Some (File (Utf8 (Ok (VObj deployed_props))))
  ∧ obj_get "fileUrl" deployed_props = VStr "http://10.0.2.2:4000/files/android/update.zip"
  ∧ occurs "?" "http://10.0.2.2:4000/files/android/update.zip" = false
  ∧ occurs "#" "http://10.0.2.2:4000/files/android/update.zip" = false
  ∧ ∃ o' q,
      (GET_check authorized_request api_process).2 = Ok (Response 200 (Json (VObj o')))
      ∧ obj_get "fileUrl" o'
        = VStr "http://10.0.2.2:4000/files/android/update.zip?token=secure-signature"
      ∧ query_of_url "http://10.0.2.2:4000/files/android/update.zip?token=secure-signature"
        = Some q
      ∧ ∀ p' download, query download = q → (secureGuard p' download).2 = Next.
Proof.
  do 5 (split; [by vm_compute|]).
  apply (signed_url_passes_guard api_process authorized_request deployed_props
           "http://10.0.2.2:4000/files/android/update.zip"); by vm_compute.
Defined.

(** C5, as the code has it: the handler compares no versions.  With a valid
    credential its outcome depends on the request through the
    [x-app-platform] header alone, so on no installed version the request
    may carry; it answers [{update: false}] when the metadata path has no
    node, and never when it has one. *)
Theorem check_ignores_installed_version p req :
  valid_credential req →
  (∀ req', valid_credential req' →
           headers req' !! "x-app-platform" = headers req !! "x-app-platform" →
           GET_check req' p = GET_check req p)
  ∧ (fs p !! metadata_path p req = None → (GET_check req p).2 = Ok no_update)
  ∧ (is_Some (fs p !! metadata_path p req) → (GET_check req p).2 ≠ Ok no_update).
Proof.
  intros Hok. split; [|split].
  - intros req' Hok' Hplat. apply check_reads_two_headers.
    + unfold valid_credential in *. congruence.
    + by rewrite Hplat.
  - intros Hnone. by rewrite check_no_metadata.
  - intros [node Hnode]. rewrite (check_with_metadata _ _ _ Hok Hnode).
    destruct (read_metadata node) as [[metadata prefix]|e]; simpl.
    + unfold no_update. intros Heq.
      apply (signed_body_not_update_false metadata prefix). congruence.
    + discriminate.
Qed.

(** C5 fails on the code: a client with a valid credential that reports
    version 2.0.0, the version of the stored record, is answered with the
    record and its signed URL, not with [{update: false}]. *)
Lemma up_to_date_client_offered_update :
  valid_credential up_to_date_request
  ∧ headers up_to_date_request !! "x-app-version" = Some "2.0.0"
  ∧ query up_to_date_request !! "version" = Some (QStr "2.0.0")
  ∧ req_body up_to_date_request = VObj [("version", VStr "2.0.0")]
  ∧ get_prop deployed_metadata "version" = Ok (VStr "2.0.0")
  ∧ (GET_check up_to_date_request api_process).2 = Ok (Response 200 (Json (VObj deployed_signed)))
  ∧ (GET_check up_to_date_request api_process).2 ≠ Ok no_update.
Proof.
  repeat (split; [by vm_compute|]). vm_compute. discriminate.
Qed.

Lemma check_ignores_installed_version_witness :
  valid_credential up_to_date_request
  ∧ valid_credential outdated_request
  ∧ headers outdated_request !! "x-app-platform"
    = headers up_to_date_request !! "x-app-platform"
  ∧ is_Some (fs api_process !! metadata_path api_process up_to_date_request)
  ∧ GET_check outdated_request api_process = GET_check up_to_date_request api_process
  ∧ (GET_check up_to_date_request api_process).2 ≠ Ok no_update.
Proof.
  destruct (check_ignores_installed_version api_process up_to_date_request)
    as (Hsame & _ & Hsome); [by vm_compute|].
  assert (is_Some (fs api_process !! metadata_path api_process up_to_date_request))
    as Hnode by (vm_compute; eauto).
  do 3 (split; [by vm_compute|]). split; [done|]. split.
  - apply Hsame; by vm_compute.
  - by apply Hsome.
Defined.

(** * Further properties *)

(** ** Paths *)

Lemma split_on_cons c s : ∃ h t, split_on c s = h :: t.
Proof.
  induction s as [|d s (h & t & IH)]; simpl; [by eauto|].
  destruct (Ascii.eqb d c); [by eauto|]. rewrite IH. by eauto.
Qed.

Lemma split_on_app c s t :
  split_on c (s +:+ String c t) = split_on c s ++ split_on c t.
Proof.
  induction s as [|d s IH]; simpl.
  - by rewrite Ascii.eqb_refl.
  - destruct (Ascii.eqb d c); [by rewrite IH|].
    rewrite IH. by destruct (split_on_cons c s) as (h & tl & ->).
Qed.

Lemma split_on_absent c s : occurs c s = false → split_on c s = [s].
Proof.
  induction s as [|d s IH]; simpl; [done|].
  intros [-> Hs]%orb_false_iff. by rewrite IH.
Qed.

Lemma clean_segment s : clean s = true → segment s.
Proof.
  unfold clean, segment. rewrite !andb_true_iff, !negb_true_iff.
  intros [[[Hne Hsl] _] _]. split; [|done].
  intros ->. discriminate.
Qed.

Lemma split_on_join r :
  r ≠ [] → Forall segment r → split_on "/" (join_with "/" r) = r.
Proof.
  induction r as [|x [|y r] IH]; intros Hne Hall; [done| |].
  - simpl. apply split_on_absent. by inversion Hall as [|?? [_ ?]].
  - change (join_with "/" (x :: y :: r)) with (x +:+ String "/" (join_with "/" (y :: r))).
    inversion Hall as [|?? [_ Hx] Hrest]; subst.
    rewrite split_on_app, split_on_absent by done.
    by rewrite IH.
Qed.

Lemma norm_step_clean b st seg : clean seg = true → norm_step b st seg = seg :: st.
Proof.
  unfold clean, norm_step. rewrite !andb_true_iff, !negb_true_iff.
  by intros [[[-> _] ->] ->].
Qed.

Lemma foldl_norm_step_clean b st l :
  Forall (λ s, clean s = true) l → foldl (norm_step b) st l = rev l ++ st.
Proof.
  revert st. induction l as [|x l IH]; intros st Hall; [done|].
  inversion Hall; subst. simpl. rewrite norm_step_clean, IH by done.
  by rewrite <- app_assoc.
Qed.

Lemma split_on_abs_path a :
  Forall (λ s, clean s = true) a →
  foldl (norm_step false) [] (split_on "/" (abs_path a)) = rev a.
Proof.
  intros Hall.
  change (split_on "/" (abs_path a)) with ("" :: split_on "/" (join_with "/" a)).
  change (foldl (norm_step false) [] ("" :: split_on "/" (join_with "/" a)))
    with (foldl (norm_step false) [] (split_on "/" (join_with "/" a))).
  destruct a as [|x a]; [done|].
  rewrite split_on_join; [|done|].
  - by rewrite foldl_norm_step_clean, app_nil_r.
  - eapply Forall_impl; [exact Hall|]. apply clean_segment.
Qed.

Lemma list_ascii_app s t :
  String.list_ascii_of_string (s +:+ t)
  = String.list_ascii_of_string s ++ String.list_ascii_of_string t.
Proof. induction s as [|c s IH]; simpl; [done|]. by rewrite IH. Qed.

Lemma last_char_is_app c s t : t ≠ "" → last_char_is c (s +:+ t) = last_char_is c t.
Proof.
  intros Hne. unfold last_char_is. rewrite list_ascii_app, last_app.
  destruct t as [|d t]; [done|]. simpl.
  by destruct (last (d :: String.list_ascii_of_string t)) eqn:E;
    [|apply last_None in E].
Qed.

Lemma last_char_is_absent c s : occurs c s = false → last_char_is c s = false.
Proof.
  unfold last_char_is. induction s as [|d s IH]; simpl; [done|].
  intros [Hd Hs]%orb_false_iff. destruct s as [|e s]; simpl in *.
  - by rewrite Ascii.eqb_sym.
  - by apply IH.
Qed.

Lemma join_with_segments_ne r : r ≠ [] → Forall segment r → join_with "/" r ≠ "".
Proof.
  destruct r as [|x [|y r]]; intros Hne Hall; [done| |];
    inversion Hall as [|?? [Hx _]]; subst; simpl; [done|].
  by destruct x.
Qed.

Lemma last_char_is_join r :
  r ≠ [] → Forall segment r → last_char_is "/" (join_with "/" r) = false.
Proof.
  induction r as [|x [|y r] IH]; intros Hne Hall; [done| |].
  - simpl. apply last_char_is_absent. by inversion Hall as [|?? [_ ?]].
  - change (join_with "/" (x :: y :: r)) with (x +:+ "/" +:+ join_with "/" (y :: r)).
    inversion Hall; subst.
    rewrite last_char_is_app.
    + rewrite last_char_is_app; [by apply IH|]. by apply join_with_segments_ne.
    + done.
Qed.

(** [normalize] on an absolute path without trailing separator. *)
Lemma normalize_absolute rest :
  last_char_is "/" (String "/" rest) = false →
  normalize (String "/" rest)
  = abs_path (rev (foldl (norm_step false) [] (split_on "/" (String "/" rest)))).
Proof.
  intros Hlast. unfold normalize, abs_path. rewrite Hlast.
  change (Ascii.eqb "/" "/") with true. cbv beta iota zeta. simpl negb.
  by destruct (join_with "/" _).
Qed.

(** Joining a relative path onto an absolute one resolves its segments
    against those of the absolute path. *)
Lemma path_join_abs a r :
  Forall (λ s, clean s = true) a →
  r ≠ [] → Forall segment r →
  path_join [abs_path a; join_with "/" r]
  = abs_path (rev (foldl (norm_step false) (rev a) r)).
Proof.
  intros Ha Hne Hr. unfold path_join.
  pose proof (join_with_segments_ne r Hne Hr) as Hjoin.
  rewrite filter_cons_True by done.
  rewrite filter_cons_True by done. rewrite filter_nil.
  change (join_with "/" [abs_path a; join_with "/" r])
    with (String "/" (join_with "/" a +:+ String "/" (join_with "/" r))).
  rewrite normalize_absolute.
  - f_equal. f_equal.
    change (String "/" (join_with "/" a +:+ String "/" (join_with "/" r)))
      with (abs_path a +:+ String "/" (join_with "/" r)).
    rewrite split_on_app, foldl_app, split_on_abs_path by done.
    by rewrite split_on_join.
  - change (String "/" (join_with "/" a +:+ String "/" (join_with "/" r)))
      with (abs_path a +:+ "/" +:+ join_with "/" r).
    rewrite last_char_is_app; [|done].
    rewrite last_char_is_app by done. by apply last_char_is_join.
Qed.

Lemma path_join_abs_rel a rel r :
  Forall (λ s, clean s = true) a →
  r ≠ [] → Forall segment r → join_with "/" r = rel →
  path_join [abs_path a; rel]
  = abs_path (rev (foldl (norm_step false) (rev a) r)).
Proof. intros Ha Hne Hr <-. by apply path_join_abs. Qed.

Lemma norm_step_up st x :
  clean x = true → norm_step false (x :: st) ".." = st.
Proof.
  unfold clean. rewrite !andb_true_iff, !negb_true_iff.
  intros [_ Hx]. unfold norm_step. simpl. by rewrite Hx.
Qed.

Lemma segment_clean_or_up s : clean s = true ∨ s = ".." → segment s.
Proof. intros [?%clean_segment | ->]; [done|]. by split. Qed.

Lemma Forall_clean_app a b :
  Forall (λ s, clean s = true) a → Forall (λ s, clean s = true) b →
  Forall (λ s, clean s = true) (a ++ b).
Proof. intros. by apply Forall_app. Qed.

(** Where the API server looks for metadata, in the repository layout. *)
Lemma storage_root_layout base :
  Forall (λ s, clean s = true) base →
  path_join [api_dir base; "../cdn-server/storage"] = storage_path base [].
Proof.
  intros Hb. unfold api_dir, storage_path.
  rewrite (path_join_abs_rel _ _ [".."; "cdn-server"; "storage"]); try done.
  - rewrite rev_app_distr. simpl rev at 2. simpl app at 1.
    cbn [foldl]. rewrite norm_step_up by done.
    rewrite !norm_step_clean by done.
    simpl rev. rewrite rev_involutive. by rewrite <- !app_assoc.
  - apply Forall_clean_app; [done|]. by repeat constructor.
  - repeat constructor; done.
Qed.

Lemma path_join_three a b c :
  a ≠ "" → b ≠ "" → c ≠ "" →
  path_join [a; b; c] = path_join [a; b +:+ "/" +:+ c].
Proof.
  intros Ha Hb Hc. unfold path_join.
  assert (b +:+ "/" +:+ c ≠ "") by (by destruct b).
  by rewrite !filter_cons_True, !filter_nil by done.
Qed.

Lemma string_app_assoc s t u : (s +:+ t) +:+ u = s +:+ t +:+ u.
Proof.
  induction s as [|c s IH]; [done|].
  change (String c ((s +:+ t) +:+ u) = String c (s +:+ t +:+ u)). by f_equal.
Qed.

Lemma join_with_snoc r x :
  r ≠ [] → join_with "/" (r ++ [x]) = join_with "/" r +:+ "/" +:+ x.
Proof.
  induction r as [|y [|z r] IH]; intros Hne; [done|done|].
  change (join_with "/" ((y :: z :: r) ++ [x]))
    with (y +:+ "/" +:+ join_with "/" ((z :: r) ++ [x])).
  rewrite IH by done.
  change (join_with "/" (y :: z :: r)) with (y +:+ "/" +:+ join_with "/" (z :: r)).
  by rewrite !string_app_assoc.
Qed.

Lemma abs_path_ne a : abs_path a ≠ "".
Proof. done. Qed.

(** The metadata path for a platform header that reads as the relative
    path with segments [r]. *)
Lemma metadata_path_layout base p req r :
  Forall (λ s, clean s = true) base →
  dirname p = api_dir base →
  r ≠ [] → Forall segment r →
  or_default (headers req !! "x-app-platform") "android" = join_with "/" r →
  metadata_path p req
  = abs_path (rev (foldl (norm_step false)
                     (rev (base ++ ["local-system"; "cdn-server"; "storage"]))
                     (r ++ ["metadata.json"]))).
Proof.
  intros Hb Hdir Hne Hr Hplat. unfold metadata_path.
  rewrite Hdir, storage_root_layout, Hplat by done.
  unfold storage_path. rewrite app_nil_r.
  rewrite path_join_three; [|done|by apply join_with_segments_ne|done].
  apply path_join_abs_rel.
  - apply Forall_clean_app; [done|]. by repeat constructor.
  - by destruct r.
  - apply Forall_app. split; [done|]. by repeat constructor.
  - by apply join_with_snoc.
Qed.


Lemma path_join_child a x :
  Forall (λ s, clean s = true) a → clean x = true →
  path_join [abs_path a; x] = abs_path (a ++ [x]).
Proof.
  intros Ha Hx.
  rewrite (path_join_abs_rel a x [x]); try done.
  - simpl. rewrite norm_step_clean by done. simpl. by rewrite rev_involutive.
  - constructor; [by apply clean_segment|constructor].
Qed.

(** The paths of [deploy.js] when it sits in a directory [proj] next to
    [local-system]. *)
Lemma cdn_root_layout base proj :
  Forall (λ s, clean s = true) base → clean proj = true →
  CDN_ROOT (abs_path (base ++ [proj])) = storage_path base ["android"].
Proof.
  intros Hb Hp. unfold CDN_ROOT, storage_path.
  rewrite (path_join_abs_rel _ _
             [".."; "local-system"; "cdn-server"; "storage"; "android"]); try done.
  - rewrite rev_app_distr. simpl rev at 2. simpl app at 1.
    cbn [foldl]. rewrite norm_step_up by done.
    rewrite !norm_step_clean by done.
    simpl rev. rewrite rev_involutive. by rewrite <- !app_assoc.
  - apply Forall_clean_app; [done|]. by repeat constructor.
  - repeat constructor; done.
Qed.

Lemma storage_path_clean base rel :
  Forall (λ s, clean s = true) base → Forall (λ s, clean s = true) rel →
  Forall (λ s, clean s = true) (base ++ ["local-system"; "cdn-server"; "storage"] ++ rel).
Proof.
  intros Hb Hr. apply Forall_clean_app; [done|].
  apply Forall_clean_app; [by repeat constructor|done].
Qed.

Lemma storage_path_child base rel x :
  Forall (λ s, clean s = true) base → Forall (λ s, clean s = true) rel →
  clean x = true →
  path_join [storage_path base rel; x] = storage_path base (rel ++ [x]).
Proof.
  intros Hb Hr Hx. unfold storage_path.
  rewrite path_join_child; [|by apply storage_path_clean|done].
  by rewrite <- !app_assoc.
Qed.

Lemma deploy_paths_layout base proj :
  Forall (λ s, clean s = true) base → clean proj = true →
  CDN_ZIP_DEST (abs_path (base ++ [proj])) = storage_path base ["android"; "update.zip"]
  ∧ METADATA_FILE (abs_path (base ++ [proj])) = storage_path base ["android"; "metadata.json"].
Proof.
  intros Hb Hp. unfold CDN_ZIP_DEST, METADATA_FILE.
  rewrite cdn_root_layout by done.
  by rewrite !storage_path_child by (done || by repeat constructor).
Qed.

Lemma abs_path_inj a b :
  Forall segment a → Forall segment b → abs_path a = abs_path b → a = b.
Proof.
  intros Ha Hb Habs.
  assert (join_with "/" a = join_with "/" b) as Heq.
  { unfold abs_path in Habs. injection Habs as Hj. exact Hj. }
  clear Habs. destruct a as [|x a], b as [|y b]; [done| | |].
  - symmetry in Heq. by apply join_with_segments_ne in Heq.
  - by apply join_with_segments_ne in Heq.
  - rewrite <- (split_on_join (x :: a)), <- (split_on_join (y :: b)) by done.
    by rewrite Heq.
Qed.

Lemma storage_paths_differ base rel x y :
  Forall (λ s, clean s = true) base → Forall (λ s, clean s = true) rel →
  clean x = true → clean y = true → x ≠ y →
  storage_path base (rel ++ [x]) ≠ storage_path base (rel ++ [y]).
Proof.
  intros Hb Hr Hx Hy Hne Heq. unfold storage_path in Heq.
  apply abs_path_inj in Heq.
  - apply app_inv_head in Heq. apply app_inv_head in Heq.
    apply app_inv_head in Heq. congruence.
  - eapply Forall_impl; [apply storage_path_clean; [done|]|apply clean_segment].
    apply Forall_clean_app; [done|by repeat constructor].
  - eapply Forall_impl; [apply storage_path_clean; [done|]|apply clean_segment].
    apply Forall_clean_app; [done|by repeat constructor].
Qed.

(** ** The deployment script *)

Section DeployProperties.
Context `{Host}.

Lemma sh_bind_done {A B} (m : sh A) (k : A → sh B) d t d' b :
  (m ≫= k) d = (t, d', Done b) →
  ∃ t1 d1 a t2, m d = (t1, d1, Done a) ∧ k a d1 = (t2, d', Done b) ∧ t = t1 ++ t2.
Proof.
  unfold mbind, sh_bind. destruct (m d) as [[t1 d1] [a|f]]; [|done].
  destruct (k a d1) as [[t2 d2] r] eqn:Hk. intros [= <- <- <-].
  by exists t1, d1, a, t2.
Qed.

Lemma say_done l d t d' u : say l d = (t, d', Done u) → t = [l] ∧ d' = d.
Proof. unfold say. by intros [= <- <-]. Qed.

Lemma execSync_done cmd d t d' u :
  execSync cmd d = (t, d', Done u) → t = [Ran cmd] ∧ child_process cmd d = (d', true).
Proof.
  unfold execSync. destruct (child_process cmd d) as [d1 [|]]; [|done].
  by intros [= <- <-].
Qed.

Lemma d_existsSync_done f d t d' b :
  d_existsSync f d = (t, d', Done b) → t = [] ∧ d' = d.
Proof. unfold d_existsSync. by intros [= <- <-]. Qed.

Lemma unlinkSync_done f d t d' u :
  unlinkSync f d = (t, d', Done u) → t = [] ∧ d' = delete f d.
Proof. unfold unlinkSync. destruct (permits _ _ _); [|done]. by intros [= <- <-]. Qed.

Lemma when_done b m d t d' u :
  when b m d = (t, d', Done u) →
  if b then m d = (t, d', Done u) else t = [] ∧ d' = d.
Proof. destruct b; simpl; [done|]. unfold mret, sh_ret. by intros [= <- <-]. Qed.

Lemma d_readFileSync_done f d t d' c :
  d_readFileSync f d = (t, d', Done c) →
  t = [] ∧ d' = d ∧ d !! f = Some (DFile c).
Proof.
  unfold d_readFileSync. destruct (d !! f) as [[|c']|]; [done| |done].
  destruct (permits _ _ _); [|done]. by intros [= <- <- <-].
Qed.

Lemma writeFileSync_done f c d t d' u :
  writeFileSync f c d = (t, d', Done u) → t = [] ∧ d' = <[f := DFile c]> d.
Proof. unfold writeFileSync. destruct (permits _ _ _); [|done]. by intros [= <- <-]. Qed.

Lemma copyFileSync_done src dest d t d' u :
  copyFileSync src dest d = (t, d', Done u) →
  ∃ c, t = [] ∧ d !! src = Some (DFile c) ∧ d' = <[dest := DFile c]> d.
Proof.
  unfold copyFileSync. intros (t1 & d1 & c & t2 & Hr & Hw & ->)%sh_bind_done.
  apply d_readFileSync_done in Hr as (-> & -> & Hsrc).
  unfold write_copy in Hw. destruct (permits _ _ _); [|done].
  injection Hw as <- <-. by exists c.
Qed.

Lemma deploy_steps_done VERSION root d t d' u :
  deploy_steps VERSION root d = (t, d', Done u) →
  ∃ d1 c,
    d1 !! ZIP_FILE root = Some (DFile c)
    ∧ d' = <[METADATA_FILE root := DFile (JsonText (deploy_metadata VERSION (sha256_hex c)))]>
             (<[CDN_ZIP_DEST root := DFile c]> d1)
    ∧ t = success_lines VERSION root (sha256_hex c).
Proof.
  unfold deploy_steps. intros Hrun.
  repeat match type of Hrun with
         | (_ ≫= _) _ = _ =>
             let Hm := fresh "Hm" in
             apply sh_bind_done in Hrun as (? & ? & ? & ? & Hm & Hrun & ->)
         end.
  repeat match goal with
         | Hs : say _ _ = _ |- _ => apply say_done in Hs as (-> & ->)
         | Hs : execSync _ _ = _ |- _ => apply execSync_done in Hs as (-> & ?)
         | Hs : d_existsSync _ _ = _ |- _ => apply d_existsSync_done in Hs as (-> & ->)
         | Hs : d_readFileSync _ _ = _ |- _ => apply d_readFileSync_done in Hs as (-> & -> & ?)
         | Hs : writeFileSync _ _ _ = _ |- _ => apply writeFileSync_done in Hs as (-> & ->)
         | Hs : copyFileSync _ _ _ = _ |- _ => apply copyFileSync_done in Hs as (? & -> & ? & ->)
         end.
  match goal with
  | Hw : when ?b _ _ = (?tw, _, _) |- _ =>
      assert (tw = []) as ->;
      [apply when_done in Hw; destruct b; [|by destruct Hw];
       by apply unlinkSync_done in Hw as [-> _]|]
  end.
  match goal with
  | H1 : ?dz !! ZIP_FILE root = Some (DFile ?c1),
    H2 : ?dz !! ZIP_FILE root = Some (DFile ?c2) |- _ =>
      assert (c2 = c1) as -> by congruence; by exists dz, c1
  end.
Qed.

Lemma deploy_paths_project base proj :
  Forall (λ s, clean s = true) base → clean proj = true →
  DIST_DIR (abs_path (base ++ [proj])) = abs_path (base ++ [proj; "dist"])
  ∧ ZIP_FILE (abs_path (base ++ [proj])) = abs_path (base ++ [proj; "dist"; "update.zip"]).
Proof.
  intros Hb Hp. unfold ZIP_FILE, DIST_DIR.
  assert (Forall (λ s, clean s = true) (base ++ [proj])) as Hbp.
  { apply Forall_clean_app; [done|]. by repeat constructor. }
  rewrite path_join_child by done. rewrite <- app_assoc. simpl app.
  split; [done|].
  rewrite path_join_child; [by rewrite <- app_assoc|..|done].
  apply Forall_clean_app; [done|]. by repeat constructor.
Qed.

Lemma project_path_not_storage base l rel :
  Forall (λ s, clean s = true) base → Forall (λ s, clean s = true) l →
  Forall (λ s, clean s = true) rel →
  (length l < 3 + length rel)%nat →
  abs_path (base ++ l) ≠ storage_path base rel.
Proof.
  intros Hb Hl Hr Hlen Heq. unfold storage_path in Heq.
  apply abs_path_inj in Heq.
  - apply app_inv_head in Heq. apply (f_equal length) in Heq.
    rewrite length_app in Heq. simpl in Heq. lia.
  - eapply Forall_impl; [by apply Forall_clean_app|apply clean_segment].
  - eapply Forall_impl; [by apply storage_path_clean|apply clean_segment].
Qed.

Lemma quiet_safe_bind {A B} f (m : sh A) (k : A → sh B) :
  quiet f m → (∀ a, safe f (k a)) → safe f (m ≫= k).
Proof.
  intros Hm Hk d t d' e. unfold mbind, sh_bind.
  destruct (m d) as [[t1 d1] [a|e1]] eqn:Hmd.
  - destruct (k a d1) as [[t2 d2] r] eqn:Hkd. intros [= <- <- ->].
    destruct (Hm _ _ _ _ Hmd) as [Hf1 Ht1], (Hk _ _ _ _ _ Hkd) as [Ht2 Hf2].
    split; [by intros [?|?]%elem_of_app|].
    destruct Hf2 as [Hf2|(-> & d0 & c & Hd0 & ->)]; [left; congruence|].
    right. split; [done|]. exists d0, c. split; [congruence|done].
  - intros [= <- <- <-]. destruct (Hm _ _ _ _ Hmd) as [Hf1 Ht1]. split; [done|by left].
Qed.

Lemma unfailing_bind {A B} (m : sh A) (k : A → sh B) :
  unfailing m → (∀ a, unfailing (k a)) → unfailing (m ≫= k).
Proof.
  intros Hm Hk d t d' e. unfold mbind, sh_bind.
  destruct (m d) as [[t1 d1] [a|e1]] eqn:Hmd.
  - destruct (k a d1) as [[t2 d2] r] eqn:Hkd. intros [= <- <- ->].
    by apply (Hk _ _ _ _ _ Hkd).
  - by destruct (Hm _ _ _ _ Hmd).
Qed.

Lemma unfailing_safe {A} f (m : sh A) : unfailing m → safe f m.
Proof. intros Hm d t d' e Hfail. by destruct (Hm _ _ _ _ Hfail). Qed.

Lemma say_unfailing l : unfailing (say l).
Proof. by intros d t d' e. Qed.

Lemma say_quiet f l : l ≠ completion_line → quiet f (say l).
Proof.
  intros Hl d t d' r [= <- <- <-]. split; [done|].
  intros Hin. apply elem_of_cons in Hin as [Hin|Hin]; [done|].
  by apply elem_of_nil in Hin.
Qed.

Lemma execSync_quiet f cmd :
  (∀ c d0, (child_process c d0).1 !! f = d0 !! f) →
  quiet f (execSync cmd).
Proof.
  intros Hchild d t d' r. unfold execSync. specialize (Hchild cmd d).
  destruct (child_process cmd d) as [d1 ok]; intros [= <- <- <-].
  split; [done|]. intros Hin.
  apply elem_of_cons in Hin as [Hin|Hin]; [discriminate Hin|].
  by apply elem_of_nil in Hin.
Qed.

Lemma d_existsSync_quiet f g : quiet f (d_existsSync g).
Proof. intros d t d' r [= <- <- <-]. split; [done|]. by intros ?%elem_of_nil. Qed.

Lemma unlinkSync_quiet f g : f ≠ g → quiet f (unlinkSync g).
Proof.
  intros Hne d t d' r. unfold unlinkSync.
  destruct (permits _ _ _); intros [= <- <- <-];
    (split; [|by intros ?%elem_of_nil]); [|done].
  by apply lookup_delete_ne.
Qed.

Lemma when_quiet f b m : quiet f m → quiet f (when b m).
Proof.
  intros Hm. destruct b; [done|].
  intros d t d' r [= <- <- <-]. split; [done|]. by intros ?%elem_of_nil.
Qed.

Lemma d_readFileSync_quiet f g : quiet f (d_readFileSync g).
Proof.
  intros d t d' r. unfold d_readFileSync.
  destruct (d !! g) as [[|c]|]; [|destruct (permits _ _ _)|];
    intros [= <- <- <-]; (split; [done|]); by intros ?%elem_of_nil.
Qed.

Lemma left_with_other f g l d : f ≠ g → left_with g l d !! f = d !! f.
Proof.
  intros Hne. destruct l; simpl; [done| |].
  - by apply lookup_insert_ne.
  - by apply lookup_delete_ne.
Qed.

Lemma write_copy_quiet f dest c : f ≠ dest → quiet f (write_copy dest c).
Proof.
  intros Hne d t d' r. unfold write_copy.
  destruct (permits _ _ _); intros [= <- <- <-];
    (split; [|by intros ?%elem_of_nil]).
  - by apply lookup_insert_ne.
  - by apply left_with_other.
Qed.

Lemma copyFileSync_quiet f src dest : f ≠ dest → quiet f (copyFileSync src dest).
Proof.
  intros Hne d t d' r. unfold copyFileSync, mbind, sh_bind.
  destruct (d_readFileSync src d) as [[t1 d1] [c|e1]] eqn:Hr.
  - destruct (write_copy dest c d1) as [[t2 d2] r2] eqn:Hw. intros [= <- <- <-].
    destruct (d_readFileSync_quiet f src _ _ _ _ Hr) as [Hf1 Ht1].
    destruct (write_copy_quiet f dest c Hne _ _ _ _ Hw) as [Hf2 Ht2].
    split; [congruence|]. by intros [?|?]%elem_of_app.
  - intros [= <- <- <-]. by apply (d_readFileSync_quiet f src _ _ _ _ Hr).
Qed.

(** The last fallible step: once the metadata is written nothing can fail
    any more; when the write itself fails, the file is left as a failed
    write leaves it. *)
Lemma writeFileSync_then_safe {B} f c (k : unit → sh B) :
  (∀ u, unfailing (k u)) → safe f (writeFileSync f c ≫= k).
Proof.
  intros Hk d t d' e. unfold mbind, sh_bind, writeFileSync.
  destruct (permits _ _ _).
  - destruct (k tt _) as [[t2 d2] r] eqn:Hkd. intros [= <- <- ->].
    by destruct (Hk _ _ _ _ _ Hkd).
  - intros [= <- <- <-]. split; [by intros ?%elem_of_nil|].
    right. split; [done|]. by exists d, c.
Qed.

Lemma deploy_steps_failed VERSION root :
  (∀ cmd d0, (child_process cmd d0).1 !! METADATA_FILE root = d0 !! METADATA_FILE root) →
  METADATA_FILE root ≠ ZIP_FILE root → METADATA_FILE root ≠ CDN_ZIP_DEST root →
  safe (METADATA_FILE root) (deploy_steps VERSION root).
Proof.
  intros Hchild Hzip Hcdn. unfold deploy_steps.
  apply quiet_safe_bind; [by apply say_quiet|intros _].
  apply quiet_safe_bind; [by apply execSync_quiet|intros _].
  apply quiet_safe_bind; [by apply say_quiet|intros _].
  apply quiet_safe_bind; [apply d_existsSync_quiet|intros stale].
  apply quiet_safe_bind; [by apply when_quiet, unlinkSync_quiet|intros _].
  apply quiet_safe_bind; [by apply execSync_quiet|intros _].
  apply quiet_safe_bind; [by apply say_quiet|intros _].
  apply quiet_safe_bind; [apply d_readFileSync_quiet|intros fileBuffer].
  apply quiet_safe_bind; [by apply say_quiet|intros _].
  apply quiet_safe_bind; [by apply say_quiet|intros _].
  apply quiet_safe_bind; [by apply copyFileSync_quiet|intros _].
  apply quiet_safe_bind; [by apply say_quiet|intros _].
  apply writeFileSync_then_safe. intros _.
  repeat (apply unfailing_bind; [apply say_unfailing|intros _]).
  apply say_unfailing.
Qed.

(** The script around its [try] block: the [dist] directory is made when
    missing, and the block's result decides the exit code. *)
Lemma deploy_run VERSION root d :
  VERSION ≠ "" →
  deploy (Some VERSION) root d
  = match (if bool_decide (is_Some (d !! DIST_DIR root)) then Some d
           else if permits OpMkdir (DIST_DIR root) d
                then Some (<[DIST_DIR root := DDir]> d) else None) with
    | None => ([], d, Uncaught (FsFailed OpMkdir (DIST_DIR root)))
    | Some d0 =>
        match deploy_steps VERSION root d0 with
        | (t, d', Done _) =>
            (Out ("🚀 Starting Deployment for Version " +:+ VERSION +:+ "...") :: t,
             d', Exit 0)
        | (t, d', Failed f) =>
            (Out ("🚀 Starting Deployment for Version " +:+ VERSION +:+ "...")
               :: t ++ [ErrWith "❌ Deployment Failed:" f],
             d', Exit 1)
        end
    end.
Proof.
  intros Hne. unfold deploy. simpl default.
  destruct (String.eqb VERSION "") eqn:E; [by apply String.eqb_eq in E|].
  unfold sh_catch, when, mkdirSync, d_existsSync, say, mbind, sh_bind, mret, sh_ret.
  destruct (bool_decide (is_Some (d !! DIST_DIR root))); simpl.
  - destruct (deploy_steps VERSION root d) as [[t d'] [u|f]]; simpl; [|done].
    by rewrite app_nil_r.
  - destruct (permits OpMkdir (DIST_DIR root) d); simpl; [|done].
    destruct (deploy_steps VERSION root _) as [[t d'] [u|f]]; simpl; [|done].
    by rewrite app_nil_r.
Qed.

Lemma deploy_without_version argv2 root d :
  default "" argv2 = "" →
  deploy argv2 root d
  = ([Err "❌ Please provide a version number. Usage: node deploy.js 2.0.1"], d, Exit 1).
Proof. intros Hv. unfold deploy. by rewrite Hv. Qed.

Lemma deploy_succeeded base proj argv2 d t d' :
  Forall (λ s, clean s = true) base → clean proj = true →
  deploy argv2 (abs_path (base ++ [proj])) d = (t, d', Exit 0) →
  ∃ VERSION c,
    argv2 = Some VERSION ∧ VERSION ≠ ""
    ∧ d' !! storage_path base ["android"; "update.zip"] = Some (DFile c)
    ∧ d' !! storage_path base ["android"; "metadata.json"]
      = Some (DFile (JsonText (deploy_metadata VERSION (sha256_hex c))))
    ∧ t = Out ("🚀 Starting Deployment for Version " +:+ VERSION +:+ "...")
            :: success_lines VERSION (abs_path (base ++ [proj])) (sha256_hex c).
Proof.
  intros Hb Hp Hrun.
  destruct (decide (default "" argv2 = "")) as [Hv|Hv].
  { by rewrite deploy_without_version in Hrun. }
  destruct argv2 as [VERSION|]; [simpl in Hv | done].
  rewrite deploy_run in Hrun by done.
  destruct (if bool_decide _ then _ else _) as [d0|]; [|done].
  destruct (deploy_steps _ _ d0) as [[t0 d1] [u|f]] eqn:Hsteps; [|done].
  injection Hrun as <- <-.
  apply deploy_steps_done in Hsteps as (dz & c & Hzip & -> & ->).
  destruct (deploy_paths_layout base proj Hb Hp) as [-> ->].
  exists VERSION, c. repeat split; [done| |by rewrite lookup_insert_eq].
  rewrite lookup_insert_ne, lookup_insert_eq; [done|].
  apply (storage_paths_differ base ["android"] "metadata.json" "update.zip");
    by repeat constructor.
Qed.

Lemma deploy_not_succeeded base proj argv2 d t d' e :
  Forall (λ s, clean s = true) base → clean proj = true →
  (∀ cmd d0,
     (child_process cmd d0).1 !! storage_path base ["android"; "metadata.json"]
     = d0 !! storage_path base ["android"; "metadata.json"]) →
  deploy argv2 (abs_path (base ++ [proj])) d = (t, d', e) →
  e ≠ Exit 0 →
  let meta := storage_path base ["android"; "metadata.json"] in
  let failed_write := ErrWith "❌ Deployment Failed:" (FsFailed OpWrite meta) in
  (d' !! meta = d !! meta
   ∨ (failed_write ∈ t
      ∧ ∃ d0 c, d0 !! meta = d !! meta ∧ d' = after_failed_write meta c d0))
  ∧ (e = Exit 1 ∨ e = Uncaught (FsFailed OpMkdir (abs_path (base ++ [proj; "dist"]))))
  ∧ (Out "✅ Deployment Complete!" ∉ t)
  ∧ ((argv2 = None ∨ argv2 = Some "") → d' = d ∧ ∀ cmd, Ran cmd ∉ t).
Proof.
  intros Hb Hp Hchild Hrun Hne meta failed_write.
  destruct (decide (default "" argv2 = "")) as [Hv|Hv].
  { rewrite deploy_without_version in Hrun by done. injection Hrun as <- <- <-.
    split; [by left|]. split; [by left|]. split.
    - intros Hin. apply elem_of_cons in Hin as [Hin|Hin]; [discriminate Hin|].
      by apply elem_of_nil in Hin.
    - intros _. split; [done|]. intros cmd Hin.
      apply elem_of_cons in Hin as [Hin|Hin]; [discriminate Hin|].
      by apply elem_of_nil in Hin. }
  destruct argv2 as [VERSION|]; [simpl in Hv | done].
  assert (¬ (Some VERSION = None ∨ Some VERSION = Some "")) as Hgiven.
  { intros [?|[= ?]]; done. }
  rewrite deploy_run in Hrun by done.
  destruct (deploy_paths_project base proj Hb Hp) as [Hdist Hzipf].
  destruct (deploy_paths_layout base proj Hb Hp) as [Hcdn Hmeta].
  assert (abs_path (base ++ [proj; "dist"]) ≠ meta) as Hd.
  { apply project_path_not_storage;
      [done|by repeat constructor|by repeat constructor|simpl; lia]. }
  assert (abs_path (base ++ [proj; "dist"; "update.zip"]) ≠ meta) as Hz.
  { apply project_path_not_storage;
      [done|by repeat constructor|by repeat constructor|simpl; lia]. }
  assert (meta ≠ storage_path base ["android"; "update.zip"]) as Hc.
  { apply (storage_paths_differ base ["android"] "metadata.json" "update.zip");
      by repeat constructor. }
  rewrite Hdist in Hrun.
  assert (safe meta (deploy_steps VERSION (abs_path (base ++ [proj])))) as Hsafe.
  { unfold meta. rewrite <- Hmeta. apply deploy_steps_failed.
    - by rewrite Hmeta.
    - rewrite Hmeta, Hzipf. by apply not_eq_sym.
    - by rewrite Hmeta, Hcdn. }
  assert (∀ d0 t0 d1 f,
            d0 !! meta = d !! meta →
            deploy_steps VERSION (abs_path (base ++ [proj])) d0 = (t0, d1, Failed f) →
            let t1 := Out ("🚀 Starting Deployment for Version " +:+ VERSION +:+ "...")
                        :: t0 ++ [ErrWith "❌ Deployment Failed:" f] in
            (d1 !! meta = d !! meta
             ∨ (failed_write ∈ t1
                ∧ ∃ d2 c, d2 !! meta = d !! meta ∧ d1 = after_failed_write meta c d2))
            ∧ (Out "✅ Deployment Complete!" ∉ t1)) as Hfail.
  { intros d0 t0 d1 f Hd0 Hsteps t1.
    destruct (Hsafe _ _ _ _ Hsteps) as [Hout Hkeep].
    split.
    - destruct Hkeep as [Hkeep|(-> & d2 & c & Hd2 & ->)]; [left; congruence|].
      right. split.
      + unfold t1. rewrite app_comm_cons. apply elem_of_app. right. by left.
      + exists d2, c. split; [congruence|done].
    - intros Hin. apply elem_of_cons in Hin as [Hin|Hin]; [discriminate Hin|].
      apply elem_of_app in Hin as [Hin|Hin]; [done|].
      apply elem_of_cons in Hin as [Hin|Hin]; [discriminate Hin|].
      by apply elem_of_nil in Hin. }
  destruct (bool_decide _).
  - destruct (deploy_steps _ _ d) as [[t0 d1] [u|f]] eqn:Hsteps;
      injection Hrun as <- <- <-; [done|].
    destruct (Hfail d t0 d1 f eq_refl Hsteps) as (Hkeep & Hout).
    split; [done|]. split; [by left|]. split; [done|done].
  - destruct (permits _ _ _).
    + destruct (deploy_steps _ _ _) as [[t0 d1] [u|f]] eqn:Hsteps;
        injection Hrun as <- <- <-; [done|].
      destruct (Hfail _ t0 d1 f (lookup_insert_ne _ _ _ _ Hd) Hsteps)
        as (Hkeep & Hout).
      split; [done|]. split; [by left|]. split; [done|done].
    + injection Hrun as <- <- <-. split; [by left|]. split; [by right|].
      split; [by intros Hin%elem_of_nil|done].
Qed.

Lemma metadata_path_clean_platform base p req s :
  Forall (λ s, clean s = true) base →
  dirname p = api_dir base →
  clean s = true →
  or_default (headers req !! "x-app-platform") "android" = s →
  metadata_path p req = storage_path base [s; "metadata.json"].
Proof.
  intros Hb Hdir Hs Hplat.
  rewrite (metadata_path_layout base p req [s]); try done.
  - rewrite foldl_norm_step_clean by (by repeat constructor).
    rewrite rev_app_distr, rev_involutive. simpl rev.
    unfold storage_path. by rewrite <- !app_assoc.
  - constructor; [by apply clean_segment|constructor].
Qed.

Lemma api_view_json d f v :
  d !! f = Some (DFile (JsonText v)) → api_view d !! f = Some (File (Utf8 (Ok v))).
Proof. intros Hf. unfold api_view. by rewrite lookup_fmap, Hf. Qed.

(** X1: a run of [deploy.js] that exits with code 0 was given a non-empty
    version and left under the CDN storage an [android/update.zip] and an
    [android/metadata.json] whose [fileHash] is the digest of exactly that
    zip's content; its trace is the start line followed by the progress
    lines and the two commands, in order. *)
Theorem deploy_success_publishes_matching_hash base proj argv2 d t d' :
  Forall (λ s, clean s = true) base → clean proj = true →
  deploy argv2 (abs_path (base ++ [proj])) d = (t, d', Exit 0) →
  ∃ VERSION c,
    argv2 = Some VERSION ∧ VERSION ≠ ""
    ∧ d' !! storage_path base ["android"; "update.zip"] = Some (DFile c)
    ∧ d' !! storage_path base ["android"; "metadata.json"]
      = Some (DFile (JsonText (deploy_metadata VERSION (sha256_hex c))))
    ∧ t = Out ("🚀 Starting Deployment for Version " +:+ VERSION +:+ "...")
            :: success_lines VERSION (abs_path (base ++ [proj])) (sha256_hex c).
Proof. apply deploy_succeeded. Qed.

(** X2: a run of [deploy.js] that does not exit with code 0 ends with code
    1 or with the uncaught failure to create [dist], and never prints the
    completion line.  Provided the child processes do not touch the
    published [metadata.json], such a run leaves that file as it was,
    with one exception: when what failed is the write of [metadata.json]
    itself, which the last line then reports, the file is what that failed
    write left of it, so possibly emptied or cut short.  Without a
    version argument (or with an empty one) the run executes no command
    and leaves the whole disk as it was. *)
Theorem deploy_failure_keeps_metadata base proj argv2 d t d' e :
  Forall (λ s, clean s = true) base → clean proj = true →
  (∀ cmd d0,
     (child_process cmd d0).1 !! storage_path base ["android"; "metadata.json"]
     = d0 !! storage_path base ["android"; "metadata.json"]) →
  deploy argv2 (abs_path (base ++ [proj])) d = (t, d', e) →
  e ≠ Exit 0 →
  let meta := storage_path base ["android"; "metadata.json"] in
  let failed_write := ErrWith "❌ Deployment Failed:" (FsFailed OpWrite meta) in
  (d' !! meta = d !! meta
   ∨ (failed_write ∈ t
      ∧ ∃ d0 c, d0 !! meta = d !! meta ∧ d' = after_failed_write meta c d0))
  ∧ (e = Exit 1 ∨ e = Uncaught (FsFailed OpMkdir (abs_path (base ++ [proj; "dist"]))))
  ∧ (Out "✅ Deployment Complete!" ∉ t)
  ∧ ((argv2 = None ∨ argv2 = Some "") → d' = d ∧ ∀ cmd, Ran cmd ∉ t).
Proof. apply deploy_not_succeeded. Qed.

(** X3: after a run of [deploy.js] that exits with code 0, [GET /check] on
    the API server next to it, asked with the valid credential for the
    Android platform, answers 200 with the record of that run: its id and
    version, the digest of the zip now under the CDN storage, and the file
    URL followed by the token, which the guard of the CDN accepts. *)
Theorem deployed_update_is_served base proj argv2 d t d' p req :
  Forall (λ s, clean s = true) base → clean proj = true →
  deploy argv2 (abs_path (base ++ [proj])) d = (t, d', Exit 0) →
  dirname p = api_dir base →
  fs p = api_view d' →
  valid_credential req →
  or_default (headers req !! "x-app-platform") "android" = "android" →
  ∃ VERSION c q,
    argv2 = Some VERSION
    ∧ d' !! storage_path base ["android"; "update.zip"] = Some (DFile c)
    ∧ (GET_check req p).2
      = Ok (Response 200 (Json (VObj
          [("id", VStr (deploy_id VERSION));
           ("version", VStr VERSION);
           ("fileUrl", VStr "http://10.0.2.2:4000/files/android/update.zip?token=secure-signature");
           ("fileHash", VStr (sha256_hex c));
           ("status", VStr "UPDATE");
           ("force", VBool false)])))
    ∧ query_of_url "http://10.0.2.2:4000/files/android/update.zip?token=secure-signature"
      = Some q
    ∧ ∀ p' download, query download = q → (secureGuard p' download).2 = Next.
Proof.
  intros Hb Hp Hrun Hdir Hfs Hok Hplat.
  apply deploy_succeeded in Hrun as (VERSION & c & -> & _ & Hzip & Hmeta & _); try done.
  exists VERSION, c, {["token" := QStr "secure-signature"]}.
  split; [done|]. split; [done|]. split; [|split].
  - assert (fs p !! metadata_path p req
            = Some (File (Utf8 (Ok (deploy_metadata VERSION (sha256_hex c)))))) as Hnode.
    { rewrite (metadata_path_clean_platform base p req "android") by done.
      rewrite Hfs. by apply api_view_json. }
    by rewrite (check_with_metadata _ _ _ Hok Hnode).
  - by vm_compute.
  - intros p' download Hq. apply secureGuard_next.
    by rewrite Hq, lookup_singleton_eq.
Qed.

End DeployProperties.

Lemma triple_eta {A B C} (x : A * B * C) : x = (x.1.1, x.1.2, x.2).
Proof. by destruct x as [[? ?] ?]. Qed.

Lemma demo_run_exit : demo_run = (demo_run.1.1, demo_run.1.2, Exit 0).
Proof.
  rewrite (triple_eta demo_run) at 1. f_equal; by vm_compute.
Qed.

Lemma full_disk_run_exit :
  full_disk_run = (full_disk_run.1.1, full_disk_run.1.2, Exit 1).
Proof.
  rewrite (triple_eta full_disk_run) at 1. f_equal; by vm_compute.
Qed.

Example demo_run_ends :
  demo_run.2 = Exit 0
  ∧ demo_run.1.2 !! "/work/local-system/cdn-server/storage/android/metadata.json"
    = Some (DFile (JsonText (deploy_metadata "2.0.1" "sha256(zip-2.0.1)")))
  ∧ broken_run.2 = Exit 1.
Proof. repeat split; by vm_compute. Qed.

(** A run that fails while writing [metadata.json]: the new zip is under
    the CDN storage already, and the metadata file is left empty. *)
Example full_disk_run_ends :
  full_disk_run.2 = Exit 1
  ∧ last full_disk_run.1.1
    = Some (ErrWith "❌ Deployment Failed:"
              (FsFailed OpWrite "/work/local-system/cdn-server/storage/android/metadata.json"))
  ∧ demo_disk !! "/work/local-system/cdn-server/storage/android/metadata.json"
    = Some (DFile (JsonText deployed_metadata))
  ∧ full_disk_run.1.2 !! "/work/local-system/cdn-server/storage/android/metadata.json"
    = Some (DFile (Raw ""))
  ∧ full_disk_run.1.2 !! "/work/local-system/cdn-server/storage/android/update.zip"
    = Some (DFile (Raw "zip-2.0.1")).
Proof. repeat split; by vm_compute. Qed.

Lemma deploy_success_publishes_matching_hash_witness :
  Forall (λ s, clean s = true) ["work"] ∧ clean "OtaPoc" = true
  ∧ demo_run = (demo_run.1.1, demo_run.1.2, Exit 0)
  ∧ ∃ VERSION c,
      Some "2.0.1" = Some VERSION ∧ VERSION ≠ ""
      ∧ demo_run.1.2 !! storage_path ["work"] ["android"; "update.zip"] = Some (DFile c)
      ∧ demo_run.1.2 !! storage_path ["work"] ["android"; "metadata.json"]
        = Some (DFile (JsonText (deploy_metadata VERSION (@sha256_hex demo_host c))))
      ∧ demo_run.1.1
        = Out ("🚀 Starting Deployment for Version " +:+ VERSION +:+ "...")
            :: success_lines VERSION (abs_path (["work"] ++ ["OtaPoc"]))
                 (@sha256_hex demo_host c).
Proof.
  split; [by repeat constructor|]. split; [done|]. split; [exact demo_run_exit|].
  apply (@deploy_success_publishes_matching_hash demo_host ["work"] "OtaPoc"
           (Some "2.0.1") demo_disk demo_run.1.1 demo_run.1.2);
    [by repeat constructor|done|exact demo_run_exit].
Defined.

Lemma deploy_failure_keeps_metadata_witness :
  Forall (λ s, clean s = true) ["work"] ∧ clean "OtaPoc" = true
  ∧ (∀ cmd d0,
       (@child_process full_disk_host cmd d0).1
         !! storage_path ["work"] ["android"; "metadata.json"]
       = d0 !! storage_path ["work"] ["android"; "metadata.json"])
  ∧ full_disk_run = (full_disk_run.1.1, full_disk_run.1.2, Exit 1)
  ∧ Exit 1 ≠ Exit 0
  ∧ let meta := storage_path ["work"] ["android"; "metadata.json"] in
    let failed_write := ErrWith "❌ Deployment Failed:" (FsFailed OpWrite meta) in
    (full_disk_run.1.2 !! meta = demo_disk !! meta
     ∨ (failed_write ∈ full_disk_run.1.1
        ∧ ∃ d0 c, d0 !! meta = demo_disk !! meta
                  ∧ full_disk_run.1.2 = @after_failed_write full_disk_host meta c d0))
    ∧ (Exit 1 = Exit 1
       ∨ Exit 1 = Uncaught (FsFailed OpMkdir (abs_path (["work"] ++ ["OtaPoc"; "dist"]))))
    ∧ (Out "✅ Deployment Complete!" ∉ full_disk_run.1.1)
    ∧ ((Some "2.0.1" = None ∨ Some "2.0.1" = Some "") →
       full_disk_run.1.2 = demo_disk ∧ ∀ cmd, Ran cmd ∉ full_disk_run.1.1).
Proof.
  assert (∀ cmd d0,
            (@child_process full_disk_host cmd d0).1
              !! storage_path ["work"] ["android"; "metadata.json"]
            = d0 !! storage_path ["work"] ["android"; "metadata.json"]) as Hchild.
  { intros cmd d0. simpl. destruct (String.eqb cmd bundle_command); simpl;
      by apply lookup_insert_ne. }
  split; [by repeat constructor|]. split; [done|]. split; [exact Hchild|].
  split; [exact full_disk_run_exit|]. split; [done|].
  apply (@deploy_failure_keeps_metadata full_disk_host ["work"] "OtaPoc"
           (Some "2.0.1") demo_disk full_disk_run.1.1 full_disk_run.1.2 (Exit 1));
    [by repeat constructor|done|exact Hchild|exact full_disk_run_exit|done].
Defined.

Lemma deployed_update_is_served_witness :
  Forall (λ s, clean s = true) ["work"] ∧ clean "OtaPoc" = true
  ∧ demo_run = (demo_run.1.1, demo_run.1.2, Exit 0)
  ∧ dirname demo_api_process = api_dir ["work"]
  ∧ fs demo_api_process = @api_view demo_host demo_run.1.2
  ∧ valid_credential authorized_request
  ∧ or_default (headers authorized_request !! "x-app-platform") "android" = "android"
  ∧ ∃ VERSION c q,
      Some "2.0.1" = Some VERSION
      ∧ demo_run.1.2 !! storage_path ["work"] ["android"; "update.zip"] = Some (DFile c)
      ∧ (GET_check authorized_request demo_api_process).2
        = Ok (Response 200 (Json (VObj
            [("id", VStr (deploy_id VERSION));
             ("version", VStr VERSION);
             ("fileUrl", VStr "http://10.0.2.2:4000/files/android/update.zip?token=secure-signature");
             ("fileHash", VStr (@sha256_hex demo_host c));
             ("status", VStr "UPDATE");
             ("force", VBool false)])))
      ∧ query_of_url "http://10.0.2.2:4000/files/android/update.zip?token=secure-signature"
        = Some q
      ∧ ∀ p' download, query download = q → (secureGuard p' download).2 = Next.
Proof.
  split; [by repeat constructor|]. split; [done|]. split; [exact demo_run_exit|].
  do 2 (split; [done|]). split; [by vm_compute|]. split; [by vm_compute|].
  apply (@deployed_update_is_served demo_host ["work"] "OtaPoc" (Some "2.0.1")
           demo_disk demo_run.1.1 demo_run.1.2);
    [by repeat constructor|done|exact demo_run_exit|done|done
    |by vm_compute|by vm_compute].
Defined.

Lemma remove_char_app c s t :
  remove_char c (s +:+ t) = remove_char c s +:+ remove_char c t.
Proof.
  induction s as [|d s IH]; [done|].
  change (String d s +:+ t) with (String d (s +:+ t)). simpl.
  destruct (Ascii.eqb d c); [done|]. by rewrite IH.
Qed.

Lemma remove_char_absent c s : occurs c (remove_char c s) = false.
Proof.
  induction s as [|d s IH]; [done|]. simpl.
  destruct (Ascii.eqb d c) eqn:E; [done|]. simpl. by rewrite E.
Qed.

Lemma remove_char_fixed c s : occurs c s = false → remove_char c s = s.
Proof.
  induction s as [|d s IH]; [done|]. simpl.
  intros [-> Hs]%orb_false_iff. by rewrite IH.
Qed.

(** X4: the bundle id that [deploy.js] derives from a version is ["v"]
    followed by the version without its dots: it contains no dot, it is
    the version itself behind the ["v"] when the version has none, and two
    versions that differ only by a dot get the same id. *)
Theorem deploy_id_drops_dots a b :
  occurs "." (deploy_id a) = false
  ∧ (occurs "." a = false → deploy_id a = "v" +:+ a)
  ∧ deploy_id (a +:+ "." +:+ b) = deploy_id (a +:+ b).
Proof.
  split; [|split].
  - unfold deploy_id. change (occurs "." (String "v" (remove_char "." a)) = false).
    simpl. apply remove_char_absent.
  - intros Hno. unfold deploy_id. by rewrite remove_char_fixed.
  - unfold deploy_id. by rewrite !remove_char_app.
Qed.

Lemma deploy_id_drops_dots_witness :
  occurs "." "201" = false
  ∧ deploy_id "201" = "v201"
  ∧ deploy_id "2.0.1" = deploy_id "20.1".
Proof.
  split; [done|].
  destruct (deploy_id_drops_dots "201" "") as (_ & Hplain & _).
  destruct (deploy_id_drops_dots "2" "0.1") as (_ & _ & Hdot).
  destruct (deploy_id_drops_dots "20" "1") as (_ & _ & Hdot').
  split; [by apply Hplain|]. exact (eq_trans Hdot (eq_sym Hdot')).
Defined.

(** X5: with [deploy.js] in a directory next to [local-system], the
    metadata file it writes is the file [GET /check] reads for the Android
    platform, and the zip it copies lies under the directory [cdn.js] hands
    to [express.static], at the relative path [android/update.zip] that the
    file URL names after [/files]. *)
Theorem deploy_targets_match_servers base proj p req :
  Forall (λ s, clean s = true) base → clean proj = true →
  dirname p = api_dir base →
  or_default (headers req !! "x-app-platform") "android" = "android" →
  METADATA_FILE (abs_path (base ++ [proj])) = metadata_path p req
  ∧ CDN_ZIP_DEST (abs_path (base ++ [proj]))
    = path_join [path_join [cdn_dir base; "storage"]; "android/update.zip"].
Proof.
  intros Hb Hp Hdir Hplat.
  destruct (deploy_paths_layout base proj Hb Hp) as [-> ->]. split.
  - by rewrite (metadata_path_clean_platform base p req "android").
  - unfold cdn_dir. rewrite path_join_child; [|by apply Forall_clean_app; repeat constructor|done].
    rewrite (path_join_abs_rel _ _ ["android"; "update.zip"]); try done.
    + rewrite foldl_norm_step_clean by (by repeat constructor).
      rewrite rev_app_distr, rev_involutive. simpl rev.
      unfold storage_path. by rewrite <- !app_assoc.
    + apply Forall_clean_app; [|by repeat constructor].
      apply Forall_clean_app; [done|by repeat constructor].
    + by repeat constructor.
Qed.

Lemma deploy_targets_match_servers_witness :
  Forall (λ s, clean s = true) ["work"] ∧ clean "OtaPoc" = true
  ∧ dirname demo_api_process = api_dir ["work"]
  ∧ or_default (headers authorized_request !! "x-app-platform") "android" = "android"
  ∧ METADATA_FILE (abs_path (["work"] ++ ["OtaPoc"]))
    = metadata_path demo_api_process authorized_request
  ∧ CDN_ZIP_DEST (abs_path (["work"] ++ ["OtaPoc"]))
    = path_join [path_join [cdn_dir ["work"]; "storage"]; "android/update.zip"].
Proof.
  split; [by repeat constructor|]. do 2 (split; [done|]). split; [by vm_compute|].
  apply (deploy_targets_match_servers ["work"] "OtaPoc");
    [by repeat constructor|done|done|by vm_compute].
Defined.




(** ** More on [GET /check] *)

Lemma read_metadata_throws node e :
  read_metadata node = Throw e ↔ unusable node e.
Proof.
  split.
  - destruct node as [|c]; simpl; [by intros [= <-]; constructor|].
    destruct (JSON_parse c) as [metadata|e0] eqn:Hparse;
      [|by intros [= <-]; constructor].
    destruct (get_prop metadata "fileUrl") as [fileUrl|e0] eqn:Hget;
      [|by intros [= <-]; econstructor].
    destruct (ToString fileUrl) as [u|e0] eqn:Hstr; [done|].
    intros [= <-]. by econstructor.
  - intros Hun. destruct Hun as [|c e Hp|c m e Hp Hg|c m f e Hp Hg Hs]; simpl.
    + done.
    + by rewrite Hp.
    + by rewrite Hp, Hg.
    + by rewrite Hp, Hg, Hs.
Qed.

(** X7: when the node at the metadata path is a directory, is not JSON, is
    [null], or has a [fileUrl] without string form, the handler logs the
    exception and answers 500 with the fixed error body; for a node that
    exists these are the only ways to a 500, every other node gets 200. *)
Theorem check_answers_500_on_unusable_metadata p req node :
  valid_credential req →
  fs p !! metadata_path p req = Some node →
  (∀ e, unusable node e →
        GET_check req p
        = ([log_request; ExistsSync (metadata_path p req);
            ReadFileSync (metadata_path p req);
            ConsoleError "Error reading metadata:" e],
           Ok internal_error))
  ∧ ∀ r, (GET_check req p).2 = Ok r →
         (statusCode r = 500 ↔ ∃ e, unusable node e)
         ∧ (statusCode r = 200 ↔ ¬ ∃ e, unusable node e).
Proof.
  intros Hok Hnode. rewrite (check_with_metadata _ _ _ Hok Hnode). split.
  - intros e Hun%read_metadata_throws. by rewrite Hun.
  - intros r. destruct (read_metadata node) as [[metadata u]|e] eqn:Hread; simpl.
    + intros [= <-]. simpl.
      assert (¬ ∃ e, unusable node e) as Hnone.
      { intros [e He%read_metadata_throws]. congruence. }
      split; split; intros ?; first [done|by exfalso; auto].
    + intros [= <-]. simpl.
      assert (∃ e, unusable node e) as Hsome.
      { exists e. by apply read_metadata_throws. }
      split; split; intros ?; first [done|by exfalso; auto].
Qed.

Lemma check_answers_500_on_unusable_metadata_witness :
  valid_credential authorized_request
  ∧ fs directory_process !! metadata_path directory_process authorized_request = Some Dir
  ∧ unusable Dir FsError
  ∧ GET_check authorized_request directory_process
    = ([log_request;
        ExistsSync (metadata_path directory_process authorized_request);
        ReadFileSync (metadata_path directory_process authorized_request);
        ConsoleError "Error reading metadata:" FsError],
       Ok internal_error).
Proof.
  split; [by vm_compute|]. split; [by vm_compute|]. split; [constructor|].
  destruct (check_answers_500_on_unusable_metadata directory_process
              authorized_request Dir) as [Hthrow _];
    [by vm_compute|by vm_compute|].
  apply Hthrow. constructor.
Defined.

(** X8: whatever the request and the process, the handler answers, with
    status 200, 401 or 500; the status is 401 exactly when the credential
    is not the valid one; the existence test is made exactly when it is
    valid, the read exactly when moreover a node is there, and no other
    path than the platform's metadata path is ever touched. *)
Theorem check_statuses_and_file_access p req :
  ∃ t r,
    GET_check req p = (t, Ok r)
    ∧ (statusCode r = 200 ∨ statusCode r = 401 ∨ statusCode r = 500)
    ∧ (statusCode r = 401 ↔ ¬ valid_credential req)
    ∧ (ExistsSync (metadata_path p req) ∈ t ↔ valid_credential req)
    ∧ (ReadFileSync (metadata_path p req) ∈ t
       ↔ valid_credential req ∧ is_Some (fs p !! metadata_path p req))
    ∧ ∀ f, ExistsSync f ∈ t ∨ ReadFileSync f ∈ t → f = metadata_path p req.
Proof.
  destruct (decide (valid_credential req)) as [Hok|Hno].
  - destruct (fs p !! metadata_path p req) as [node|] eqn:Hnode.
    + rewrite (check_with_metadata _ _ _ Hok Hnode).
      destruct (read_metadata node) as [[metadata u]|e]; eexists _, _;
        (split; [reflexivity|]); simpl;
        (split; [tauto|]); (split; [split; [done|tauto]|]);
        (split; [split; [done|]; intros _; set_solver|]);
        (split; [split; [by eauto|]; intros _; set_solver|]);
        intros f [Hin|Hin];
        repeat (apply elem_of_cons in Hin as [Hin|Hin]; [by simplify_eq|]);
        by apply elem_of_nil in Hin.
    + rewrite check_no_metadata by done. eexists _, _.
      split; [reflexivity|]. simpl.
      split; [tauto|]. split; [split; [done|tauto]|].
      split; [split; [done|]; intros _; set_solver|].
      split.
      * split; [|by intros [_ [? ?]]].
        intros Hin.
        repeat (apply elem_of_cons in Hin as [Hin|Hin]; [by simplify_eq|]).
        by apply elem_of_nil in Hin.
      * intros f [Hin|Hin];
          repeat (apply elem_of_cons in Hin as [Hin|Hin]; [by simplify_eq|]);
          by apply elem_of_nil in Hin.
  - rewrite check_rejected by done. eexists _, _.
    split; [reflexivity|]. simpl.
    split; [tauto|]. split; [done|].
    assert (∀ e, e ∈ [log_request] → touches_fs e = false) as Hlog.
    { intros e Hin. apply elem_of_cons in Hin as [->|Hin]; [done|].
      by apply elem_of_nil in Hin. }
    split; [split; [by intros ?%Hlog|done]|].
    split; [split; [by intros ?%Hlog|tauto]|].
    by intros f [?%Hlog|?%Hlog].
Qed.





(** X10: JSON that is valid but no object is not an error either: for
    [true], [false] or a number in [metadata.json] the handler answers 200
    with an object whose only property is a [fileUrl] of
    ["undefined?token=secure-signature"]; only [null] leads to 500. *)
Theorem check_signs_scalar_metadata p req metadata :
  valid_credential req →
  fs p !! metadata_path p req = Some (File (Utf8 (Ok metadata))) →
  ((∃ b, metadata = VBool b) ∨ (∃ n, metadata = VNum n) →
   (GET_check req p).2
   = Ok (Response 200 (Json (VObj
       [("fileUrl", VStr "undefined?token=secure-signature")]))))
  ∧ (metadata = VNull → (GET_check req p).2 = Ok internal_error).
Proof.
  intros Hok Hnode. rewrite (check_with_metadata _ _ _ Hok Hnode).
  split; [by intros [[b ->]|[n ->]]|by intros ->].
Qed.

Lemma check_signs_scalar_metadata_witness :
  valid_credential authorized_request
  ∧ fs scalar_process !! metadata_path scalar_process authorized_request
    = Some (File (Utf8 (Ok (VBool true))))
  ∧ (GET_check authorized_request scalar_process).2
    = Ok (Response 200 (Json (VObj
        [("fileUrl", VStr "undefined?token=secure-signature")]))).
Proof.
  do 2 (split; [by vm_compute|]).
  destruct (check_signs_scalar_metadata scalar_process authorized_request (VBool true))
    as [Hscalar _]; [by vm_compute|by vm_compute|].
  apply Hscalar. left. by exists true.
Defined.

(** ** The client *)

Lemma act_keeps_loading st l :
  Forall (λ a, ∀ b, a ≠ SetLoading b) l →
  app_loading (foldl act st l) = app_loading st.
Proof.
  revert st. induction l as [|a l IH]; intros st Hall; [done|].
  inversion Hall as [|?? Ha Hl]; subst. simpl. rewrite IH by done.
  destruct a; simpl; try done. by destruct (Ha b).
Qed.

Lemma checkUpdate_shape lib :
  ∃ middle,
    checkUpdate lib = SetLoading true :: middle ++ [SetLoading false]
    ∧ Forall (λ a, ∀ b, a ≠ SetLoading b) middle.
Proof.
  exists (SetStatus "Checking API..."
          :: (let '(done, thrown) := try_check lib in
              done ++ match thrown with
                      | Some message =>
                          [SetStatus ("Error: " +:+ message); ConsoleErr message]
                      | None => []
                      end)).
  split; [done|]. unfold try_check.
  destruct (checkForUpdate lib) as [| |e]; [destruct (updateBundle lib) as [|e]| |];
    by repeat constructor.
Qed.

(** X11: whatever the library does, [checkUpdate] turns the loading flag on
    first and off last, so that the button stays hidden from its first
    action to its last; the bundle is fetched exactly when an update was
    found, the restart alert is shown exactly when the bundle was applied,
    and the final status says which of the three ends was reached, with
    the message of the error when a call was rejected. *)
Theorem checkUpdate_outcomes lib :
  let trace := checkUpdate lib in
  let final := foldl act initial_state trace in
  app_loading final = false
  ∧ (∀ before a after, trace = before ++ a :: after → before ≠ [] →
       shows_button (foldl act initial_state before) = false)
  ∧ (CallUpdateBundle ∈ trace ↔ checkForUpdate lib = UpdateFound)
  ∧ ((∃ title message button, AlertShown title message button ∈ trace)
     ↔ checkForUpdate lib = UpdateFound ∧ updateBundle lib = BundleApplied)
  ∧ app_status final
    = match checkForUpdate lib, updateBundle lib with
      | CheckRejected e, _ => "Error: " +:+ e
      | NoUpdate, _ => "No update available on server."
      | UpdateFound, BundleRejected e => "Error: " +:+ e
      | UpdateFound, BundleApplied => "Update applied. Restarting..."
      end.
Proof.
  intros trace final. subst trace final.
  split; [|split; [|split; [|split]]].
  - destruct (checkUpdate_shape lib) as (middle & -> & Hmid).
    by rewrite app_comm_cons, foldl_app.
  - destruct (checkUpdate_shape lib) as (middle & -> & Hmid).
    intros before a after Heq Hne. unfold shows_button.
    destruct before as [|b0 before]; [done|]. clear Hne.
    injection Heq as <- Heq. simpl.
    assert (∃ rest, middle = before ++ rest) as [rest ->].
    { clear Hmid. revert middle Heq.
      induction before as [|b1 before IH]; intros middle Heq; [by eexists|].
      destruct middle as [|m middle]; simpl in Heq.
      - injection Heq as _ Heq. by destruct before.
      - injection Heq as <- Heq. destruct (IH _ Heq) as [rest ->]. by eexists. }
    apply Forall_app in Hmid as [Hbefore _].
    by rewrite act_keeps_loading.
  - unfold checkUpdate, try_check.
    destruct (checkForUpdate lib) as [| |e]; [destruct (updateBundle lib) as [|e]| |];
      simpl; (split; [|try done; intros _; set_solver]);
      intros Hin;
      repeat (apply elem_of_cons in Hin as [Hin|Hin]; [try done|]);
      by apply elem_of_nil in Hin.
  - unfold checkUpdate, try_check.
    destruct (checkForUpdate lib) as [| |e]; [destruct (updateBundle lib) as [|e]| |];
      simpl;
      (split; [|try (by intros [??]); intros _;
                exists "Update Ready",
                  "The app will now restart to apply the update.", "OK";
                set_solver]);
      intros (ti & me & bu & Hin);
      repeat (apply elem_of_cons in Hin as [Hin|Hin]; [try done|]);
      by apply elem_of_nil in Hin.
  - unfold checkUpdate, try_check.
    by destruct (checkForUpdate lib) as [| |e]; [destruct (updateBundle lib) as [|e]| |].
Qed.

(** ** Signing URLs that already have parts *)

Lemma cut_at_found c s t :
  occurs c s = true → (cut_at c (s +:+ t)).1 = (cut_at c s).1.
Proof.
  induction s as [|d s IH]; [done|].
  change (String d s +:+ t) with (String d (s +:+ t)). simpl.
  destruct (Ascii.eqb d c); [done|]. simpl. intros Hs.
  specialize (IH Hs).
  destruct (cut_at c (s +:+ t)) as [a b], (cut_at c s) as [a' b']. simpl in *.
  by rewrite IH.
Qed.

(** X12: for a file URL with a fragment, signing changes nothing in the
    request: the handler still appends the token, but the request made for
    the signed URL has the same query as the request for the URL itself;
    when the URL has no query of its own, that query is empty and the
    guard answers 403. *)
Theorem signing_after_fragment_is_lost p req o u :
  valid_credential req →
  fs p !! metadata_path p req = Some (File (Utf8 (Ok (VObj o)))) →
  obj_get "fileUrl" o = VStr u →
  occurs "#" u = true →
  (∃ o', (GET_check req p).2 = Ok (Response 200 (Json (VObj o')))
         ∧ obj_get "fileUrl" o' = VStr (u +:+ "?token=secure-signature"))
  ∧ query_of_url (u +:+ "?token=secure-signature") = query_of_url u
  ∧ (occurs "?" (cut_at "#" u).1 = false →
     query_of_url (u +:+ "?token=secure-signature") = Some ∅
     ∧ ∀ p' download, query download = ∅ →
                      (secureGuard p' download).2 = Respond forbidden).
Proof.
  intros Hok Hnode Hurl Hfrag.
  assert (query_of_url (u +:+ "?token=secure-signature") = query_of_url u) as Hsame.
  { unfold query_of_url, url_query. by rewrite cut_at_found. }
  split; [|split; [done|]].
  - exact (check_signs_string _ _ _ _ Hok Hnode Hurl).
  - intros Hnoq. rewrite Hsame. split.
    + unfold query_of_url, url_query. by rewrite cut_at_absent.
    + intros p' download Hq. rewrite secureGuard_outcome, Hq. done.
Qed.

Lemma signing_after_fragment_is_lost_witness :
  valid_credential authorized_request
  ∧ obj_get "fileUrl" [("version", VStr "2.0.0"); ("fileUrl", VStr anchored_url)]
    = VStr anchored_url
  ∧ occurs "#" anchored_url = true
  ∧ occurs "?" (cut_at "#" anchored_url).1 = false
  ∧ query_of_url (anchored_url +:+ "?token=secure-signature") = Some ∅
  ∧ (secureGuard cdn_process bare_download).2 = Respond forbidden.
Proof.
  do 4 (split; [by vm_compute|]).
  destruct (signing_after_fragment_is_lost anchored_process authorized_request
              [("version", VStr "2.0.0"); ("fileUrl", VStr anchored_url)] anchored_url)
    as (_ & _ & Hlost); [by vm_compute|by vm_compute|by vm_compute|by vm_compute|].
  destruct Hlost as [Hquery Hguard]; [by vm_compute|].
  split; [exact Hquery|]. by apply Hguard.
Defined.

Lemma plain_occurs s c :
  plain s = true →
  c ∈ ["#"; "?"; "&"; "="; "%"; "+"; "["; "]"]%char → occurs c s = false.
Proof.
  unfold plain. rewrite forallb_forall. intros Hall Hin.
  apply list_elem_of_In in Hin. apply Hall in Hin. by apply negb_true_iff.
Qed.

(** X13: for a file URL that already has one query parameter [k=v], the
    appended [?token=secure-signature] becomes the tail of that
    parameter's value: the request made for the signed URL has the single
    parameter [k] and no valid [token], and the guard answers 403. *)
Theorem signing_after_query_is_swallowed p req o base k v :
  valid_credential req →
  fs p !! metadata_path p req = Some (File (Utf8 (Ok (VObj o)))) →
  obj_get "fileUrl" o = VStr (base +:+ "?" +:+ k +:+ "=" +:+ v) →
  occurs "?" base = false → occurs "#" base = false →
  plain k = true → plain v = true → k ≠ "" → k ≠ "__proto__" →
  (∃ o', (GET_check req p).2 = Ok (Response 200 (Json (VObj o')))
         ∧ obj_get "fileUrl" o'
           = VStr ((base +:+ "?" +:+ k +:+ "=" +:+ v) +:+ "?token=secure-signature"))
  ∧ query_of_url ((base +:+ "?" +:+ k +:+ "=" +:+ v) +:+ "?token=secure-signature")
    = Some {[ k := QStr (v +:+ "?token=secure-signature") ]}
  ∧ ∀ p' download,
      query download = {[ k := QStr (v +:+ "?token=secure-signature") ]} →
      (secureGuard p' download).2 = Respond forbidden.
Proof.
  intros Hok Hnode Hurl Hbq Hbh Hk Hv Hkne Hkproto.
  pose proof (λ c, plain_occurs k c Hk) as Hkc.
  pose proof (λ c, plain_occurs v c Hv) as Hvc.
  set (rest := v +:+ "?token=secure-signature").
  assert (∀ c, c ∈ ["#"; "&"; "%"; "+"; "["; "]"]%char →
               occurs c (k +:+ "=" +:+ rest) = false) as Hq.
  { intros c Hc. unfold rest. rewrite !occurs_app.
    set_unfold in Hc.
    rewrite Hkc, Hvc by (set_unfold; tauto).
    by intuition subst. }
  split; [|split].
  - exact (check_signs_string _ _ _ _ Hok Hnode Hurl).
  - replace ((base +:+ "?" +:+ k +:+ "=" +:+ v) +:+ "?token=secure-signature")
      with (base +:+ String "?" (k +:+ "=" +:+ rest)).
    2:{ unfold rest. by rewrite !string_app_assoc. }
    unfold query_of_url. rewrite url_query_appended; [|done|done|apply Hq; set_solver].
    unfold qs_parse.
    destruct (String.eqb (k +:+ "=" +:+ rest) "") eqn:E.
    { apply String.eqb_eq in E. by destruct k. }
    rewrite split_on_absent by (apply Hq; set_solver).
    assert (parse_pair (k +:+ "=" +:+ rest) = (k, QStr rest)) as Hpair.
    { unfold parse_pair.
      change (k +:+ "=" +:+ rest) with (k +:+ String "=" rest).
      rewrite cut_at_first; [done|]. apply Hkc. set_solver. }
    simpl fmap. rewrite Hpair. simpl.
    rewrite bool_decide_eq_true_2.
    + by rewrite insert_empty.
    + split; [|split; [|split]].
      * repeat constructor; apply Hq; set_solver.
      * repeat constructor. set_solver.
      * by repeat constructor.
      * simpl. lia.
  - intros p' download Hquery. rewrite secureGuard_outcome, Hquery.
    destruct (decide (k = "token")) as [->|Hne].
    + rewrite lookup_singleton_eq. simpl.
      destruct (String.eqb rest "secure-signature") eqn:E; [|done].
      apply String.eqb_eq in E. apply (f_equal (occurs "?")) in E.
      unfold rest in E. rewrite occurs_app in E. simpl in E.
      rewrite orb_true_r in E. discriminate E.
    + by rewrite lookup_singleton_ne.
Qed.

Lemma signing_after_query_is_swallowed_witness :
  valid_credential authorized_request
  ∧ obj_get "fileUrl" [("version", VStr "2.0.0"); ("fileUrl", VStr versioned_url)]
    = VStr ("http://10.0.2.2:4000/files/android/update.zip" +:+ "?" +:+ "v" +:+ "=" +:+ "2")
  ∧ plain "v" = true ∧ plain "2" = true
  ∧ query_of_url "http://10.0.2.2:4000/files/android/update.zip?v=2?token=secure-signature"
    = Some {[ "v" := QStr "2?token=secure-signature" ]}
  ∧ (secureGuard cdn_process
       (Request "/android/update.zip" ∅ {[ "v" := QStr "2?token=secure-signature" ]}
          VUndefined)).2
    = Respond forbidden.
Proof.
  do 4 (split; [by vm_compute|]).
  destruct (signing_after_query_is_swallowed versioned_process authorized_request
              [("version", VStr "2.0.0"); ("fileUrl", VStr versioned_url)]
              "http://10.0.2.2:4000/files/android/update.zip" "v" "2")
    as (_ & Hquery & Hguard); [by vm_compute..|].
  split; [exact Hquery|]. by apply Hguard.
Defined.

(** X14: with the valid credential, a 200 answer is one of two things:
    [{update: false}], when the metadata path has no node, or an object
    whose [fileUrl] is a string ending in [?token=secure-signature], when
    it has one; no 200 answer carries an unsigned file URL. *)
Theorem check_update_answers_are_signed p req r :
  valid_credential req →
  (GET_check req p).2 = Ok r →
  statusCode r = 200 →
  (fs p !! metadata_path p req = None
   ∧ body r = Json (VObj [("update", VBool false)]))
  ∨ (is_Some (fs p !! metadata_path p req)
     ∧ ∃ o u, body r = Json (VObj o)
              ∧ obj_get "fileUrl" o = VStr (u +:+ "?token=secure-signature")).
Proof.
  intros Hok Hr Hstatus.
  destruct (fs p !! metadata_path p req) as [node|] eqn:Hnode.
  - right. split; [by eauto|].
    rewrite (check_with_metadata _ _ _ Hok Hnode) in Hr.
    destruct (read_metadata node) as [[metadata u]|e];
      [rewrite signed_answer in Hr|]; injection Hr as <-; [|done].
    eexists _, u. split; [reflexivity|]. apply sent_fileUrl.
  - left. split; [done|].
    rewrite check_no_metadata in Hr by done. by injection Hr as <-.
Qed.

Lemma check_update_answers_are_signed_witness :
  valid_credential authorized_request
  ∧ (GET_check authorized_request api_process).2
    = Ok (Response 200 (Json (VObj deployed_signed)))
  ∧ ∃ o u, Json (VObj deployed_signed) = Json (VObj o)
           ∧ obj_get "fileUrl" o = VStr (u +:+ "?token=secure-signature").
Proof.
  do 2 (split; [by vm_compute|]).
  destruct (check_update_answers_are_signed api_process authorized_request
              (Response 200 (Json (VObj deployed_signed))))
    as [[Hnone _]|[_ Hsigned]]; [by vm_compute|by vm_compute|done| |exact Hsigned].
  by vm_compute in Hnone.
Defined.

Example zip_command_demo :
  zip_command "/work/OtaPoc"
  = "powershell " +:+ String "034"
      ("Compress-Archive -Path '/work/OtaPoc/dist/index.android.bundle' -DestinationPath '/work/OtaPoc/dist/update.zip' -Force"
       +:+ String "034" "").
Proof. vm_compute. reflexivity. Qed.
